(** * Verification of the struct validator of aviabot-shared-utils

    Shallow embedding of [validation/validator.go]: the reflection-driven
    [FieldValidator.Validate], the rule-string parsing of [validateField],
    the dispatch of [applyRule] and the individual rule evaluators; the
    configuration store of package [config] (kept beside the validator
    tests) and the identifier generators of [providers/id_generator.go].

    Go strings are byte sequences; they are modelled as [string] (a list of
    8-bit [ascii] characters).  Go [error] results are modelled as
    [option string]: [None] is [nil], [Some m] an error whose [Error()] is
    [m]. *)

From Stdlib Require Import String Ascii List ZArith Bool Lia.
From Stdlib Require DecimalPos.
Import ListNotations.
Open Scope string_scope.

(* ------------------------------------------------------------------ *)
(** ** Byte helpers *)

Definition byte_of (c : ascii) : nat := nat_of_ascii c.

(** A string from a list of byte values. *)
Fixpoint bytes (l : list nat) : string :=
  match l with
  | [] => EmptyString
  | b :: l' => String (ascii_of_nat b) (bytes l')
  end.

Definition is_digit (c : ascii) : bool :=
  (48 <=? byte_of c)%nat && (byte_of c <=? 57)%nat.

(** Does [s] contain the byte [c]? *)
Fixpoint has_char (c : ascii) (s : string) : bool :=
  match s with
  | EmptyString => false
  | String a s' => Ascii.eqb a c || has_char c s'
  end.

Definition has_suffix (suf s : string) : bool :=
  let n := String.length s in
  let k := String.length suf in
  (k <=? n)%nat && String.eqb (substring (n - k) k s) suf.

(* ------------------------------------------------------------------ *)
(** ** White space as Go's [unicode.IsSpace] sees it

    The UTF-8 encodings of the runes with the White_Space property:
    U+0009..U+000D, U+0020, U+0085, U+00A0, U+1680, U+2000..U+200A,
    U+2028, U+2029, U+202F, U+205F, U+3000.  [strings.TrimSpace] and the
    [SkipSpace] of package fmt both decode runes and test them against this
    table; an invalid byte decodes to U+FFFD, which is not a space. *)

Definition space_encodings : list string :=
  [bytes [9]; bytes [10]; bytes [11]; bytes [12]; bytes [13]; bytes [32];
   bytes [194; 133]; bytes [194; 160]; bytes [225; 154; 128];
   bytes [226; 128; 128]; bytes [226; 128; 129]; bytes [226; 128; 130];
   bytes [226; 128; 131]; bytes [226; 128; 132]; bytes [226; 128; 133];
   bytes [226; 128; 134]; bytes [226; 128; 135]; bytes [226; 128; 136];
   bytes [226; 128; 137]; bytes [226; 128; 138];
   bytes [226; 128; 168]; bytes [226; 128; 169]; bytes [226; 128; 175];
   bytes [226; 129; 159]; bytes [227; 128; 128]].

(** Length in bytes of the white-space rune that starts [s] (0 if none). *)
Definition space_prefix_len (s : string) : nat :=
  match find (fun e => String.prefix e s) space_encodings with
  | Some e => String.length e
  | None => 0
  end.

(** Length in bytes of the white-space rune that ends [s] (0 if none). *)
Definition space_suffix_len (s : string) : nat :=
  match find (fun e => has_suffix e s) space_encodings with
  | Some e => String.length e
  | None => 0
  end.

Fixpoint trim_left_fuel (fuel : nat) (s : string) : string :=
  match fuel with
  | O => s
  | S f =>
      let k := space_prefix_len s in
      if (k =? 0)%nat then s
      else trim_left_fuel f (substring k (String.length s - k) s)
  end.

Fixpoint trim_right_fuel (fuel : nat) (s : string) : string :=
  match fuel with
  | O => s
  | S f =>
      let k := space_suffix_len s in
      if (k =? 0)%nat then s
      else trim_right_fuel f (substring 0 (String.length s - k) s)
  end.

(** [strings.TrimSpace]: every step removes at least one byte, so the
    length of the string is enough fuel. *)
Definition TrimSpace (s : string) : string :=
  let l := trim_left_fuel (String.length s) s in
  trim_right_fuel (String.length l) l.

(* ------------------------------------------------------------------ *)
(** ** [strings.Split] and [strings.Join] with a one-byte separator *)

Fixpoint Split (sep : ascii) (s : string) : list string :=
  match s with
  | EmptyString => [EmptyString]
  | String a s' =>
      let r := Split sep s' in
      if Ascii.eqb a sep then EmptyString :: r
      else match r with
           | [] => [String a EmptyString]
           | x :: xs => String a x :: xs
           end
  end.

Fixpoint Join (elems : list string) (sep : string) : string :=
  match elems with
  | [] => EmptyString
  | [x] => x
  | x :: xs => x ++ sep ++ Join xs sep
  end.

(* ------------------------------------------------------------------ *)
(** ** [parseInt]: [fmt.Sscanf(str, "%d", &result)] with default 0

    [Sscanf] skips white space (a newline is an error, since [Sscanf] does
    not treat newlines as space), requires input, accepts one sign byte,
    then a non-empty run of decimal digits, and parses the token with
    [strconv.ParseInt(tok, 10, 64)] (out of range is an error).  Trailing
    input after the digits is left unread and is not an error.  On any error
    the scanner panics before assigning, so [result] keeps its zero value. *)

Fixpoint skip_space_fuel (fuel : nat) (s : string) : option string :=
  match fuel with
  | O => Some s
  | S f =>
      match s with
      | EmptyString => Some s
      | String c _ =>
          if (byte_of c =? 10)%nat then None   (* "unexpected newline" *)
          else
            let k := space_prefix_len s in
            if (k =? 0)%nat then Some s
            else skip_space_fuel f (substring k (String.length s - k) s)
      end
  end.

Definition SkipSpace (s : string) : option string :=
  skip_space_fuel (String.length s) s.

(** The maximal run of decimal digits at the start, and the rest. *)
Fixpoint scan_digits (s : string) : string * string :=
  match s with
  | String c s' =>
      if is_digit c then let '(d, r) := scan_digits s' in (String c d, r)
      else (EmptyString, s)
  | EmptyString => (EmptyString, EmptyString)
  end.

Fixpoint decimal_value_acc (acc : Z) (d : string) : Z :=
  match d with
  | EmptyString => acc
  | String c d' => decimal_value_acc (10 * acc + Z.of_nat (byte_of c - 48))%Z d'
  end.

Definition decimal_value (d : string) : Z := decimal_value_acc 0 d.

Definition int64_min : Z := (- 2 ^ 63)%Z.
Definition int64_max : Z := (2 ^ 63 - 1)%Z.

(** [ss.scanInt] for the verb [d] with a 64-bit [int]. *)
Definition scanInt (s : string) : option Z :=
  match SkipSpace s with
  | None => None
  | Some EmptyString => None                       (* notEOF *)
  | Some s1 =>
      let '(neg, s2) :=
        match s1 with
        | String c r =>
            if (byte_of c =? 43)%nat then (false, r)       (* '+' *)
            else if (byte_of c =? 45)%nat then (true, r)   (* '-' *)
            else (false, s1)
        | EmptyString => (false, s1)
        end in
      let '(digits, _) := scan_digits s2 in
      if String.eqb digits EmptyString then None        (* "expected integer" *)
      else
        let v := (if neg then - decimal_value digits else decimal_value digits)%Z in
        if ((int64_min <=? v) && (v <=? int64_max))%Z then Some v else None
  end.

Definition parseInt (str : string) : Z :=
  if String.eqb str EmptyString then 0
  else match scanInt str with
       | Some result => result
       | None => 0
       end.

(* ------------------------------------------------------------------ *)
(** ** The two regular expressions compiled by the validator

    Go's [regexp] (RE2 syntax) for the constant patterns of [validateEmail]
    and [validateURL], as a regular-expression syntax tree matched by
    Brzozowski derivatives.  Both patterns are anchored with [^] and [$]
    (without the [m] flag [$] matches only at the end of the text), so
    [MatchString] is membership of the whole string.  Go's [regexp] steps
    through a string rune by rune, decoding it as [utf8.DecodeRuneInString]
    does (an invalid or truncated sequence is the rune U+FFFD, one byte
    wide); the matcher runs on that sequence of code points. *)

Inductive regex : Type :=
| RNone
| REps
| RClass (negated : bool) (ranges : list (Z * Z))
| RCat (r1 r2 : regex)
| RAlt (r1 r2 : regex)
| RStar (r : regex).

Definition class_mem (negated : bool) (ranges : list (Z * Z)) (c : Z) : bool :=
  xorb negated (existsb (fun '(lo, hi) => (lo <=? c)%Z && (c <=? hi)%Z) ranges).

Definition rcat (r1 r2 : regex) : regex :=
  match r1, r2 with
  | RNone, _ | _, RNone => RNone
  | REps, _ => r2
  | _, REps => r1
  | _, _ => RCat r1 r2
  end.

Definition ralt (r1 r2 : regex) : regex :=
  match r1, r2 with
  | RNone, _ => r2
  | _, RNone => r1
  | _, _ => RAlt r1 r2
  end.

Fixpoint nullable (r : regex) : bool :=
  match r with
  | RNone | RClass _ _ => false
  | REps | RStar _ => true
  | RCat r1 r2 => nullable r1 && nullable r2
  | RAlt r1 r2 => nullable r1 || nullable r2
  end.

Fixpoint deriv (c : Z) (r : regex) : regex :=
  match r with
  | RNone | REps => RNone
  | RClass n rs => if class_mem n rs c then REps else RNone
  | RCat r1 r2 =>
      ralt (rcat (deriv c r1) r2) (if nullable r1 then deriv c r2 else RNone)
  | RAlt r1 r2 => ralt (deriv c r1) (deriv c r2)
  | RStar r1 => rcat (deriv c r1) (RStar r1)
  end.

(** [utf8.DecodeRuneInString], applied along the whole string: the
    accepted first bytes and second-byte ranges of Go's [first] and
    [acceptRanges] tables. *)
Definition RuneError : Z := 65533.

Definition in_range (lo hi b : Z) : bool := (lo <=? b)%Z && (b <=? hi)%Z.

Definition is_cont (b : Z) : bool := in_range 128 191 b.

Definition zbyte (a : ascii) : Z := Z.of_nat (byte_of a).

Fixpoint utf8_decode (s : string) : list Z :=
  match s with
  | EmptyString => []
  | String a s1 =>
      let b0 := zbyte a in
      if (b0 <? 128)%Z then b0 :: utf8_decode s1
      else if in_range 194 223 b0 then
        match s1 with
        | String a1 s2 =>
            let b1 := zbyte a1 in
            if is_cont b1 then (64 * (b0 - 192) + (b1 - 128))%Z :: utf8_decode s2
            else RuneError :: utf8_decode s1
        | EmptyString => RuneError :: utf8_decode s1
        end
      else if in_range 224 239 b0 then
        match s1 with
        | String a1 (String a2 s3) =>
            let b1 := zbyte a1 in
            let b2 := zbyte a2 in
            let ok1 := if (b0 =? 224)%Z then in_range 160 191 b1
                       else if (b0 =? 237)%Z then in_range 128 159 b1
                       else is_cont b1 in
            if ok1 && is_cont b2
            then (4096 * (b0 - 224) + 64 * (b1 - 128) + (b2 - 128))%Z :: utf8_decode s3
            else RuneError :: utf8_decode s1
        | _ => RuneError :: utf8_decode s1
        end
      else if in_range 240 244 b0 then
        match s1 with
        | String a1 (String a2 (String a3 s4)) =>
            let b1 := zbyte a1 in
            let b2 := zbyte a2 in
            let b3 := zbyte a3 in
            let ok1 := if (b0 =? 240)%Z then in_range 144 191 b1
                       else if (b0 =? 244)%Z then in_range 128 143 b1
                       else is_cont b1 in
            if ok1 && is_cont b2 && is_cont b3
            then (262144 * (b0 - 240) + 4096 * (b1 - 128) + 64 * (b2 - 128) + (b3 - 128))%Z
                 :: utf8_decode s4
            else RuneError :: utf8_decode s1
        | _ => RuneError :: utf8_decode s1
        end
      else RuneError :: utf8_decode s1
  end.

Fixpoint match_runes (r : regex) (rs : list Z) : bool :=
  match rs with
  | [] => nullable r
  | c :: rs' => match_runes (deriv c r) rs'
  end.

Definition MatchString (r : regex) (s : string) : bool := match_runes r (utf8_decode s).

Definition lit (b : Z) : regex := RClass false [(b, b)].
Definition plus (r : regex) : regex := RCat r (RStar r).
Fixpoint seq (rs : list regex) : regex :=
  match rs with
  | [] => REps
  | [r] => r
  | r :: rs' => RCat r (seq rs')
  end.

(** [a-zA-Z] and [0-9] as code-point ranges. *)
Definition alpha_ranges : list (Z * Z) := [(97, 122); (65, 90)]%Z.
Definition digit_ranges : list (Z * Z) := [(48, 57)]%Z.
(** The Perl class [\s] of RE2: [[\t\n\f\r ]]. *)
Definition perl_space : list (Z * Z) := [(9, 9); (10, 10); (12, 12); (13, 13); (32, 32)]%Z.

(** [^[a-zA-Z0-9._%+-]+@[a-zA-Z0-9.-]+\.[a-zA-Z]{2,}$] *)
Definition emailRegex : regex :=
  seq [plus (RClass false (alpha_ranges ++ digit_ranges ++
                           [(46, 46); (95, 95); (37, 37); (43, 43); (45, 45)]%Z));
       lit 64;                                                   (* @ *)
       plus (RClass false (alpha_ranges ++ digit_ranges ++ [(46, 46); (45, 45)]%Z));
       lit 46;                                                   (* \. *)
       RClass false alpha_ranges; RClass false alpha_ranges;
       RStar (RClass false alpha_ranges)].

(** [^https?://[^\s/$.?#].[^\s]*$] *)
Definition urlRegex : regex :=
  seq [lit 104; lit 116; lit 116; lit 112;                       (* http *)
       RAlt REps (lit 115);                                      (* s? *)
       lit 58; lit 47; lit 47;                                   (* :// *)
       RClass true (perl_space ++ [(47, 47); (36, 36); (46, 46); (63, 63); (35, 35)]%Z);
       RClass true [(10, 10)%Z];                                   (* . *)
       RStar (RClass true perl_space)].

(* ------------------------------------------------------------------ *)
(** ** Go values as [reflect] sees them

    [field.Interface()] boxes a field's value in an [interface{}];
    [reflect.ValueOf] of that box has the kind of the dynamic value, or the
    kind [Invalid] when the box is the nil interface (an interface-typed
    field holding nil).  [VString] is the predeclared type [string]. *)

#[local] Set Warnings "-register-all".

Inductive gvalue : Type :=
| VNil                                (* nil interface: kind Invalid *)
| VBool (b : bool)
| VInt (z : Z)                        (* int, int8, int16, int32, int64 *)
| VUint (z : Z)                       (* uint, ..., uint64, uintptr *)
| VFloat (bits : N)                   (* float32, float64: IEEE-754 bits *)
| VString (s : string)
| VSlice (xs : list gvalue)
| VArray (xs : list gvalue)
| VMap (kvs : list (gvalue * gvalue))
| VPtr (target : option gvalue)       (* None: a nil pointer *)
| VStruct (fields : list gfield)
(** A struct field: its name, [IsExported()], [Tag.Get("validate")] and
    its value. *)
with gfield : Type :=
| GField (name : string) (exported : bool) (validate : string) (value : gvalue).

Definition is_string (v : gvalue) : bool :=
  match v with VString _ => true | _ => false end.

Definition is_struct (v : gvalue) : bool :=
  match v with VStruct _ => true | _ => false end.

Definition is_ptr (v : gvalue) : bool :=
  match v with VPtr _ => true | _ => false end.

(* ------------------------------------------------------------------ *)
(** ** The rule evaluators

    The rule [pattern] compiles its parameter with [regexp.Compile], a
    parser of the whole RE2 syntax.  The development does not depend on
    it: it is a variable of the section, giving an error text or a matcher,
    and every result holds for any such function. *)

Section Validator.

Variable regexp_Compile : string -> string + (string -> bool).

Definition msg_field (name rest : string) : string := "field '" ++ name ++ "' " ++ rest.

Definition validateRequired (name : string) (value : gvalue) : option string :=
  let err := Some (msg_field name "is required") in
  match value with
  | VString s => if String.eqb s "" then err else None
  | VSlice xs | VArray xs => if (List.length xs =? 0)%nat then err else None
  | VMap kvs => if (List.length kvs =? 0)%nat then err else None
  | VPtr None => err
  | VPtr (Some _) => None
  | VNil => err
  | _ => None
  end.

Definition validateMin (name : string) (value : gvalue) (minStr : string) : option string :=
  match value with
  | VString s =>
      if (Z.of_nat (String.length s) <? parseInt minStr)%Z
      then Some (msg_field name ("must be at least " ++ minStr ++ " characters")) else None
  | VSlice xs | VArray xs =>
      if (Z.of_nat (List.length xs) <? parseInt minStr)%Z
      then Some (msg_field name ("must have at least " ++ minStr ++ " items")) else None
  | VInt z =>
      if (z <? parseInt minStr)%Z
      then Some (msg_field name ("must be at least " ++ minStr)) else None
  | _ => None
  end.

Definition validateMax (name : string) (value : gvalue) (maxStr : string) : option string :=
  match value with
  | VString s =>
      if (parseInt maxStr <? Z.of_nat (String.length s))%Z
      then Some (msg_field name ("must be at most " ++ maxStr ++ " characters")) else None
  | VSlice xs | VArray xs =>
      if (parseInt maxStr <? Z.of_nat (List.length xs))%Z
      then Some (msg_field name ("must have at most " ++ maxStr ++ " items")) else None
  | VInt z =>
      if (parseInt maxStr <? z)%Z
      then Some (msg_field name ("must be at most " ++ maxStr)) else None
  | _ => None
  end.

Definition validateEmail (name : string) (value : gvalue) : option string :=
  match value with
  | VString str =>
      if MatchString emailRegex str then None
      else Some (msg_field name "must be a valid email address")
  | _ => Some (msg_field name "must be a string for email validation")
  end.

Definition validateURL (name : string) (value : gvalue) : option string :=
  match value with
  | VString str =>
      if String.eqb str "" then None
      else if MatchString urlRegex str then None
      else Some (msg_field name "must be a valid URL")
  | _ => Some (msg_field name "must be a string for URL validation")
  end.

Definition validatePattern (name : string) (value : gvalue) (pattern : string) : option string :=
  match value with
  | VString str =>
      match regexp_Compile pattern with
      | inl err => Some ("invalid pattern for field '" ++ name ++ "': " ++ err)
      | inr regex =>
          if regex str then None
          else Some (msg_field name "does not match required pattern")
      end
  | _ => Some (msg_field name "must be a string for pattern validation")
  end.

Definition applyRule (name : string) (value : gvalue) (ruleName ruleValue : string)
  : option string :=
  if String.eqb ruleName "required" then validateRequired name value
  else if String.eqb ruleName "min" then validateMin name value ruleValue
  else if String.eqb ruleName "max" then validateMax name value ruleValue
  else if String.eqb ruleName "email" then validateEmail name value
  else if String.eqb ruleName "url" then validateURL name value
  else if String.eqb ruleName "pattern" then validatePattern name value ruleValue
  else Some ("unknown validation rule: " ++ ruleName).

(* ------------------------------------------------------------------ *)
(** ** [validateField] and [Validate] *)

Definition comma : ascii := ",".
Definition equals : ascii := "=".

(** The body of the loop of [validateField] for one element of the split
    tag: the errors it appends. *)
Definition ruleErrors (name : string) (value : gvalue) (rule : string) : list string :=
  let rule := TrimSpace rule in
  if String.eqb rule "" then []
  else
    let parts := Split equals rule in
    let ruleName := hd "" parts in
    let ruleValue := if (1 <? List.length parts)%nat then nth 1 parts "" else "" in
    match applyRule name value ruleName ruleValue with
    | Some err => [err]
    | None => []
    end.

Definition validateField (name : string) (value : gvalue) (tag : string) : list string :=
  fold_left (fun errors rule => (errors ++ ruleErrors name value rule)%list)
    (Split comma tag) [].

(** The errors appended for one field by the loop of [Validate]. *)
Definition fieldErrors (f : gfield) : list string :=
  let 'GField fieldName exported tag fieldValue := f in
  if negb exported then []
  else if String.eqb tag "" then []
  else validateField fieldName fieldValue tag.

Definition Validate (data : gvalue) : option string :=
  let value :=
    match data with
    | VPtr None => inl "validation target cannot be nil"
    | VPtr (Some v) => inr v
    | v => inr v
    end in
  match value with
  | inl err => Some err
  | inr (VStruct fields) =>
      let errors := fold_left (fun errors f => (errors ++ fieldErrors f)%list) fields [] in
      match errors with
      | [] => None
      | _ => Some ("validation failed: " ++ Join errors "; ")
      end
  | inr _ => Some "validation target must be a struct"
  end.

End Validator.


(** ** Auxiliary predicates used to state the properties *)

(** A field that [Validate] evaluates: exported and with a non-empty
    [validate] tag. *)
Definition visible (f : gfield) : bool :=
  let 'GField _ exported tag _ := f in exported && negb (String.eqb tag "").

(** The rule names [applyRule] dispatches on. *)
Definition known_rules : list string := ["required"; "min"; "max"; "email"; "url"; "pattern"].

(** Every violation of a record, field by field in declaration order and,
    within a field, rule by rule in the order of the tag. *)
Definition record_violations (rc : string -> string + (string -> bool))
  (fields : list gfield) : list string :=
  flat_map (fun f =>
    let 'GField name exported tag value := f in
    if exported && negb (String.eqb tag "")
    then flat_map (ruleErrors rc name value) (Split comma tag) else []) fields.

(** A string that is a decimal integer literal as a whole ([strconv.Atoi]
    syntax): an optional sign followed by one or more digits. *)
Fixpoint all_digits (s : string) : bool :=
  match s with
  | EmptyString => true
  | String c s' => is_digit c && all_digits s'
  end.

Definition int_literal (s : string) : bool :=
  match s with
  | String c s' =>
      if (byte_of c =? 43)%nat || (byte_of c =? 45)%nat
      then negb (String.eqb s' "") && all_digits s'
      else all_digits s
  | EmptyString => false
  end.

Definition is_ascii_space (c : ascii) : bool :=
  ((9 <=? byte_of c)%nat && (byte_of c <=? 13)%nat) || (byte_of c =? 32)%nat.

Definition is_sign (c : ascii) : bool := (byte_of c =? 43)%nat || (byte_of c =? 45)%nat.

(** A string from which [Sscanf] reads no leading integer: empty, or
    starting with a character that is not white space (no encoding of a
    White_Space rune starts the string; any other rune, ASCII or not, and
    any invalid byte qualify), not a digit, and not a sign followed by a
    digit. *)
Definition junk_start (s : string) : bool :=
  match s with
  | EmptyString => true
  | String c r =>
      (space_prefix_len s =? 0)%nat && negb (is_digit c)
      && (negb (is_sign c)
          || match r with String d _ => negb (is_digit d) | EmptyString => true end)
  end.

(** The kinds on which [min] compares against a non-negative bound:
    lengths are non-negative, integers must be. *)
Definition measure_nonneg (v : gvalue) : bool :=
  match v with VInt z => (0 <=? z)%Z | _ => true end.

(** A regular-expression compiler used only to instantiate concrete runs:
    it accepts every pattern and matches every text.  No result about the
    [pattern] rule depends on it. *)
Definition any_compile : string -> string + (string -> bool) :=
  fun _ => inr (fun _ => true).

(* ------------------------------------------------------------------ *)
(** ** The configuration store of package [config]

    [Config.values] is a Go [map[string]string]; it is modelled as an
    association list whose keys are pairwise distinct: a lookup finds the
    binding of the key, an assignment replaces it.  Methods on [*Config]
    mutate the map; they are modelled by passing the store explicitly. *)

Module Config.

Definition store := list (string * string).

Definition map_lookup (key : string) (m : store) : option string :=
  match find (fun kv => String.eqb (fst kv) key) m with
  | Some (_, v) => Some v
  | None => None
  end.

Definition map_set (key value : string) (m : store) : store :=
  (key, value) :: filter (fun kv => negb (String.eqb (fst kv) key)) m.

Record Config : Type := { values : store }.

Definition NewConfig : Config := {| values := [] |}.

(** [c.values[key] = value] *)
Definition Set_ (c : Config) (key value : string) : Config :=
  {| values := map_set key value (values c) |}.

(** [c.values[key]]: the zero value [""] for a missing key. *)
Definition Get (c : Config) (key : string) : string :=
  match map_lookup key (values c) with Some v => v | None => "" end.

Definition GetWithDefault (c : Config) (key defaultValue : string) : string :=
  match map_lookup key (values c) with
  | Some value => if negb (String.eqb value "") then value else defaultValue
  | None => defaultValue
  end.

Definition Exists (c : Config) (key : string) : bool :=
  match map_lookup key (values c) with Some _ => true | None => false end.

(** The errors of the typed getters.  Their texts are
    "configuration key '<key>' not found" and
    "failed to parse '<key>' as <kind>: <cause>", where the cause wraps the
    [strconv] error for the input. *)
Inductive config_error : Type :=
| KeyNotFound (key : string)
| ParseFailed (key : string) (kind : string) (input : string).

(** [strconv.Atoi]: an optional sign then one or more decimal digits and
    nothing else (no white space, no underscore), within the 64-bit range
    ("invalid syntax" or "value out of range" otherwise). *)
Definition Atoi (s : string) : option Z :=
  match s with
  | EmptyString => None
  | String c r =>
      let '(neg, body) :=
        if (byte_of c =? 45)%nat then (true, r)
        else if (byte_of c =? 43)%nat then (false, r)
        else (false, s) in
      if String.eqb body "" || negb (all_digits body) then None
      else
        let v := (if neg then - decimal_value body else decimal_value body)%Z in
        if ((int64_min <=? v) && (v <=? int64_max))%Z then Some v else None
  end.

Definition GetInt (c : Config) (key : string) : Z + config_error :=
  match map_lookup key (values c) with
  | None => inr (KeyNotFound key)
  | Some value =>
      match Atoi value with
      | Some intValue => inl intValue
      | None => inr (ParseFailed key "int" value)
      end
  end.

Definition GetIntWithDefault (c : Config) (key : string) (defaultValue : Z) : Z :=
  match GetInt c key with inl intValue => intValue | inr _ => defaultValue end.

(** [strconv.ParseBool]. *)
Definition ParseBool (str : string) : option bool :=
  if existsb (String.eqb str) ["1"; "t"; "T"; "TRUE"; "true"; "True"] then Some true
  else if existsb (String.eqb str) ["0"; "f"; "F"; "FALSE"; "false"; "False"] then Some false
  else None.

Definition GetBool (c : Config) (key : string) : bool + config_error :=
  match map_lookup key (values c) with
  | None => inr (KeyNotFound key)
  | Some value =>
      match ParseBool value with
      | Some boolValue => inl boolValue
      | None => inr (ParseFailed key "bool" value)
      end
  end.

Definition GetBoolWithDefault (c : Config) (key : string) (defaultValue : bool) : bool :=
  match GetBool c key with inl boolValue => boolValue | inr _ => defaultValue end.

Definition GetStringSlice (c : Config) (key : string) : list string :=
  match map_lookup key (values c) with
  | None => []
  | Some value =>
      if String.eqb value "" then []
      else
        fold_left (fun result part =>
          let trimmed := TrimSpace part in
          if negb (String.eqb trimmed "") then (result ++ [trimmed])%list else result)
          (Split comma value) []
  end.

Definition GetStringSliceWithDefault (c : Config) (key : string)
  (defaultValue : list string) : list string :=
  let slice := GetStringSlice c key in
  if (List.length slice =? 0)%nat then defaultValue else slice.

(** [GetRequired]: [inl m] is a panic with message [m]. *)
Definition GetRequired (c : Config) (key : string) : string + string :=
  match map_lookup key (values c) with
  | Some value =>
      if String.eqb value "" then
        inl ("required configuration key '" ++ key ++ "' not found or empty")
      else inr value
  | None => inl ("required configuration key '" ++ key ++ "' not found or empty")
  end.

Definition Validate (c : Config) (requiredKeys : list string) : option string :=
  let missing :=
    fold_left (fun missing key =>
      if negb (Exists c key) || String.eqb (Get c key) "" then (missing ++ [key])%list
      else missing) requiredKeys [] in
  match missing with
  | [] => None
  | _ => Some ("missing required configuration keys: " ++ Join missing ", ")
  end.

(** [strings.SplitN(env, "=", 2)] when it has two parts: the text before
    the first [=] and everything after it. *)
Fixpoint SplitN2 (sep : ascii) (s : string) : option (string * string) :=
  match s with
  | EmptyString => None
  | String a s' =>
      if Ascii.eqb a sep then Some (EmptyString, s')
      else match SplitN2 sep s' with
           | Some (k, v) => Some (String a k, v)
           | None => None
           end
  end.

(** [LoadFromEnv] over the entries of [os.Environ()], in order. *)
Definition LoadFromEnv (c : Config) (environ : list string) : Config :=
  fold_left (fun c env =>
    match SplitN2 equals env with
    | Some (k, v) => Set_ c k v
    | None => c
    end) environ c.

End Config.

(* ------------------------------------------------------------------ *)
(** ** The identifier generators of package [providers]

    [crypto/rand.Read] is modelled by its outcome: [Some f] when it fills
    the buffer, byte [i] being [f i]; [None] when it fails.  [now] is the
    [time.Now().UnixNano()] read by the fallback paths. *)

Module Providers.

Fixpoint string_of_uint (d : Decimal.uint) : string :=
  match d with
  | Decimal.Nil => EmptyString
  | Decimal.D0 d => String "0" (string_of_uint d)
  | Decimal.D1 d => String "1" (string_of_uint d)
  | Decimal.D2 d => String "2" (string_of_uint d)
  | Decimal.D3 d => String "3" (string_of_uint d)
  | Decimal.D4 d => String "4" (string_of_uint d)
  | Decimal.D5 d => String "5" (string_of_uint d)
  | Decimal.D6 d => String "6" (string_of_uint d)
  | Decimal.D7 d => String "7" (string_of_uint d)
  | Decimal.D8 d => String "8" (string_of_uint d)
  | Decimal.D9 d => String "9" (string_of_uint d)
  end.

(** [fmt]'s [%d] of an integer. *)
Definition fmt_d (z : Z) : string :=
  match z with
  | Z0 => "0"
  | Zpos p => string_of_uint (Pos.to_uint p)
  | Zneg p => "-" ++ string_of_uint (Pos.to_uint p)
  end.

Definition hex_digit (n : nat) : ascii :=
  match n with
  | 0 => "0" | 1 => "1" | 2 => "2" | 3 => "3" | 4 => "4" | 5 => "5"
  | 6 => "6" | 7 => "7" | 8 => "8" | 9 => "9" | 10 => "a" | 11 => "b"
  | 12 => "c" | 13 => "d" | 14 => "e" | _ => "f"
  end%char.

(** [hex.EncodeToString], and [fmt]'s [%x] of a [[]byte]: two lower-case
    hexadecimal digits per byte. *)
Fixpoint EncodeToString (bs : list ascii) : string :=
  match bs with
  | [] => EmptyString
  | b :: bs' =>
      String (hex_digit (byte_of b / 16)) (String (hex_digit (byte_of b mod 16))
        (EncodeToString bs'))
  end.

Fixpoint string_of_hex_uint (d : Hexadecimal.uint) : string :=
  match d with
  | Hexadecimal.Nil => EmptyString
  | Hexadecimal.D0 d => String "0" (string_of_hex_uint d)
  | Hexadecimal.D1 d => String "1" (string_of_hex_uint d)
  | Hexadecimal.D2 d => String "2" (string_of_hex_uint d)
  | Hexadecimal.D3 d => String "3" (string_of_hex_uint d)
  | Hexadecimal.D4 d => String "4" (string_of_hex_uint d)
  | Hexadecimal.D5 d => String "5" (string_of_hex_uint d)
  | Hexadecimal.D6 d => String "6" (string_of_hex_uint d)
  | Hexadecimal.D7 d => String "7" (string_of_hex_uint d)
  | Hexadecimal.D8 d => String "8" (string_of_hex_uint d)
  | Hexadecimal.D9 d => String "9" (string_of_hex_uint d)
  | Hexadecimal.Da d => String "a" (string_of_hex_uint d)
  | Hexadecimal.Db d => String "b" (string_of_hex_uint d)
  | Hexadecimal.Dc d => String "c" (string_of_hex_uint d)
  | Hexadecimal.Dd d => String "d" (string_of_hex_uint d)
  | Hexadecimal.De d => String "e" (string_of_hex_uint d)
  | Hexadecimal.Df d => String "f" (string_of_hex_uint d)
  end.

(** [fmt]'s [%x] of an integer. *)
Definition fmt_x (z : Z) : string :=
  match z with
  | Z0 => "0"
  | Zpos p => string_of_hex_uint (Pos.to_hex_uint p)
  | Zneg p => "-" ++ string_of_hex_uint (Pos.to_hex_uint p)
  end.

(** The bytes [b[lo:hi]] of a slice. *)
Definition slice_bytes (bs : list ascii) (lo hi : nat) : list ascii :=
  firstn (hi - lo) (skipn lo bs).

(** [s[:n]] of a string: [None] is the run-time panic of a bound beyond
    the length (or negative). *)
Definition slice_prefix (s : string) (n : Z) : option string :=
  if ((0 <=? n) && (n <=? Z.of_nat (String.length s)))%Z
  then Some (substring 0 (Z.to_nat n) s) else None.

(** [UUIDGenerator.Generate]. *)
Definition UUIDGenerate (rnd : option (nat -> ascii)) (now : Z) : string :=
  match rnd with
  | None => "id-" ++ fmt_d now
  | Some f =>
      let bytes := map f (List.seq 0 16) in
      EncodeToString (slice_bytes bytes 0 4) ++ "-" ++
      EncodeToString (slice_bytes bytes 4 6) ++ "-" ++
      EncodeToString (slice_bytes bytes 6 8) ++ "-" ++
      EncodeToString (slice_bytes bytes 8 10) ++ "-" ++
      EncodeToString (slice_bytes bytes 10 16)
  end.

(** [PrefixedIDGenerator.Generate], whose base is a [UUIDGenerator]. *)
Definition PrefixedGenerate (prefix : string) (rnd : option (nat -> ascii)) (now : Z)
  : string :=
  prefix ++ "-" ++ UUIDGenerate rnd now.

(** [SimpleIDGenerator]: the counter is a Go [int] (64 bits, wrapping). *)
Record SimpleIDGenerator : Type := { counter : Z; sprefix : string }.

Definition NewSimpleIDGenerator (prefix : string) : SimpleIDGenerator :=
  {| counter := 0; sprefix := prefix |}.

Definition wrap64 (z : Z) : Z := ((z - int64_min) mod 2 ^ 64 + int64_min)%Z.

Definition SimpleGenerate (g : SimpleIDGenerator) : SimpleIDGenerator * string :=
  let g' := {| counter := wrap64 (counter g + 1); sprefix := sprefix g |} in
  (g', sprefix g' ++ "-" ++ fmt_d (counter g')).

(** [n] successive calls of [Generate], with the identifiers they return. *)
Fixpoint SimpleGenerateN (n : nat) (g : SimpleIDGenerator)
  : SimpleIDGenerator * list string :=
  match n with
  | O => (g, [])
  | S n' =>
      let '(g1, id) := SimpleGenerate g in
      let '(g2, ids) := SimpleGenerateN n' g1 in
      (g2, id :: ids)
  end.

(** [NewHexIDGenerator]: the length of the generator. *)
Definition NewHexIDGenerator (length : Z) : Z :=
  if (length <=? 0)%Z then 16%Z else length.

(** The largest allocation the Go runtime accepts on a 64-bit platform
    ([maxAlloc], [1 << heapAddrBits] with 48 address bits): [make] of a
    longer byte slice panics ("len out of range").  An allocation within
    this bound is taken to succeed. *)
Definition maxAlloc : Z := 2 ^ 48.

(** [HexIDGenerator.Generate]; [None] is a run-time panic: [make] of a
    negative or too large length, [hex.EncodeToString]'s buffer of twice
    the bytes beyond [maxAlloc], or the final slice beyond the text. *)
Definition HexGenerate (length : Z) (rnd : option (nat -> ascii)) (now : Z) : option string :=
  let n := Z.quot length 2 in
  if ((n <? 0) || (maxAlloc <? n))%Z then None     (* make([]byte, n) *)
  else match rnd with
       | None => slice_prefix (fmt_x now) length
       | Some f =>
           if (maxAlloc <? 2 * n)%Z then None        (* make([]byte, 2 * n) *)
           else slice_prefix (EncodeToString (map f (List.seq 0 (Z.to_nat n)))) length
       end.

End Providers.

(** Lower-case hexadecimal digits, the alphabet of [%x] and
    [hex.EncodeToString]. *)
Definition is_lower_hex (c : ascii) : bool :=
  is_digit c || ((97 <=? byte_of c)%nat && (byte_of c <=? 102)%nat).

Fixpoint all_lower_hex (s : string) : bool :=
  match s with
  | EmptyString => true
  | String c s' => is_lower_hex c && all_lower_hex s'
  end.

(* ================================================================== *)
(** * Properties *)

(** ** Helper lemmas on [strings.Split], [strings.Join] and the loops *)

Lemma fold_append_flat_map {A B : Type} (f : A -> list B) (l : list A) (acc : list B) :
  fold_left (fun errors x => (errors ++ f x)%list) l acc = (acc ++ flat_map f l)%list.
Proof.
  revert acc; induction l as [|x l IH]; intros acc; simpl.
  - now rewrite app_nil_r.
  - rewrite IH. now rewrite app_assoc.
Qed.

Lemma Split_not_nil (c : ascii) (s : string) : Split c s <> [].
Proof.
  induction s as [|a s IH]; simpl; [discriminate|].
  destruct (Ascii.eqb a c); [discriminate|].
  destruct (Split c s); [contradiction|discriminate].
Qed.

Lemma Split_app (c : ascii) (s1 s2 : string) :
  Split c (s1 ++ String c s2) = (Split c s1 ++ Split c s2)%list.
Proof.
  induction s1 as [|a s1 IH]; simpl.
  - now rewrite Ascii.eqb_refl.
  - rewrite IH. destruct (Ascii.eqb a c); [reflexivity|].
    pose proof (Split_not_nil c s1) as Hne.
    destruct (Split c s1) as [|x xs]; [contradiction|reflexivity].
Qed.

Lemma Split_no_sep (c : ascii) (s : string) :
  has_char c s = false -> Split c s = [s].
Proof.
  induction s as [|a s IH]; simpl; intros H; [reflexivity|].
  apply orb_false_iff in H as [Ha Hs].
  rewrite Ha, (IH Hs). reflexivity.
Qed.

Lemma Split_Join (c : ascii) (xs : list string) :
  xs <> [] -> Forall (fun x => has_char c x = false) xs ->
  Split c (Join xs (String c EmptyString)) = xs.
Proof.
  induction xs as [|x xs IH]; intros Hne Hall; [contradiction|].
  inversion Hall as [|? ? Hx Hxs]; subst.
  destruct xs as [|y ys].
  - simpl. now apply Split_no_sep.
  - change (Join (x :: y :: ys) (String c EmptyString))
      with (x ++ String c EmptyString ++ Join (y :: ys) (String c EmptyString)).
    change (String c EmptyString ++ Join (y :: ys) (String c EmptyString))
      with (String c (Join (y :: ys) (String c EmptyString))).
    rewrite Split_app, (Split_no_sep c x Hx), IH; [reflexivity|discriminate|exact Hxs].
Qed.

Lemma append_cancel_l (p a b : string) : p ++ a = p ++ b -> a = b.
Proof. induction p as [|c p IH]; simpl; intros H; [exact H|]. injection H; exact IH. Qed.

Lemma msg_field_inj (name a b : string) : msg_field name a = msg_field name b -> a = b.
Proof.
  unfold msg_field. intros H.
  apply append_cancel_l in H. apply append_cancel_l in H.
  apply (append_cancel_l "' ") in H. exact H.
Qed.

Lemma fieldErrors_hidden (rc : string -> string + (string -> bool)) (f : gfield) :
  visible f = false -> fieldErrors rc f = [].
Proof.
  destruct f as [name exported tag value]; simpl.
  destruct exported; simpl; [|reflexivity].
  destruct (String.eqb tag ""); simpl; [reflexivity|discriminate].
Qed.

Lemma flat_map_fieldErrors_filter (rc : string -> string + (string -> bool)) (fs : list gfield) :
  flat_map (fieldErrors rc) (filter visible fs) = flat_map (fieldErrors rc) fs.
Proof.
  induction fs as [|f fs IH]; simpl; [reflexivity|].
  destruct (visible f) eqn:Hv; simpl; rewrite IH; [reflexivity|].
  now rewrite fieldErrors_hidden.
Qed.

Lemma Validate_struct (rc : string -> string + (string -> bool)) (fs : list gfield) :
  Validate rc (VStruct fs)
  = match flat_map (fieldErrors rc) fs with
    | [] => None
    | errors => Some ("validation failed: " ++ Join errors "; ")
    end.
Proof.
  unfold Validate. rewrite fold_append_flat_map. simpl.
  destruct (flat_map (fieldErrors rc) fs); reflexivity.
Qed.

Lemma Validate_ptr_struct (rc : string -> string + (string -> bool)) (fs : list gfield) :
  Validate rc (VPtr (Some (VStruct fs))) = Validate rc (VStruct fs).
Proof. reflexivity. Qed.

Section Claims.

Variable regexp_Compile : string -> string + (string -> bool).

(** [validateField] is the concatenation, in order, of the errors of every
    comma-separated rule. *)
Lemma validateField_flat_map (name : string) (value : gvalue) (tag : string) :
  validateField regexp_Compile name value tag
  = flat_map (ruleErrors regexp_Compile name value) (Split comma tag).
Proof. unfold validateField. now rewrite fold_append_flat_map. Qed.

Lemma validateField_app (name : string) (value : gvalue) (t1 t2 : string) :
  validateField regexp_Compile name value (t1 ++ String comma t2)
  = (validateField regexp_Compile name value t1
     ++ validateField regexp_Compile name value t2)%list.
Proof.
  rewrite !validateField_flat_map, Split_app. apply flat_map_app.
Qed.

(** C4: a nil pointer is refused with "validation target cannot be nil";
    a non-nil pointer to a non-struct, and a non-pointer non-struct, are
    refused with "validation target must be a struct"; the two errors
    differ and neither depends on any field or rule. *)
Theorem Validate_nil_or_not_struct (v w : gvalue)
  (Hv : is_struct v = false) (Hw : is_ptr w || is_struct w = false) :
  Validate regexp_Compile (VPtr None) = Some "validation target cannot be nil"
  /\ Validate regexp_Compile (VPtr (Some v)) = Some "validation target must be a struct"
  /\ Validate regexp_Compile w = Some "validation target must be a struct"
  /\ "validation target cannot be nil" <> "validation target must be a struct".
Proof.
  split; [reflexivity|].
  split; [destruct v; try discriminate Hv; reflexivity|].
  split; [destruct w as [| | | | | | | | |[]|]; try discriminate Hw; reflexivity|].
  discriminate.
Qed.

(** C8: unexported fields and fields with an empty [validate] tag do not
    take part: [Validate] gives the same result on the record restricted to
    its exported, tagged fields, and the tag of an unexported field is never
    evaluated. *)
Theorem Validate_only_visible_fields (fs : list gfield) :
  Validate regexp_Compile (VStruct fs) = Validate regexp_Compile (VStruct (filter visible fs))
  /\ Validate regexp_Compile (VPtr (Some (VStruct fs)))
     = Validate regexp_Compile (VPtr (Some (VStruct (filter visible fs))))
  /\ (forall name tag value, fieldErrors regexp_Compile (GField name false tag value) = []).
Proof.
  assert (H : Validate regexp_Compile (VStruct fs)
              = Validate regexp_Compile (VStruct (filter visible fs))).
  { rewrite !Validate_struct, flat_map_fieldErrors_filter. reflexivity. }
  split; [exact H|]. split; [rewrite !Validate_ptr_struct; exact H|].
  intros; reflexivity.
Qed.

(** C6: the email rule accepts [user.name@domain.co.uk] and
    [test+tag@example.org], rejects [invalid-email], [@example.com],
    [john@], [john@.com] and the empty string with the invalid-email
    message, and on a non-string value reports a different, type-mismatch
    message. *)
Theorem validateEmail_cases (name : string) (v : gvalue) (Hv : is_string v = false) :
  validateEmail name (VString "user.name@domain.co.uk") = None
  /\ validateEmail name (VString "test+tag@example.org") = None
  /\ validateEmail name (VString "invalid-email") = Some (msg_field name "must be a valid email address")
  /\ validateEmail name (VString "@example.com") = Some (msg_field name "must be a valid email address")
  /\ validateEmail name (VString "john@") = Some (msg_field name "must be a valid email address")
  /\ validateEmail name (VString "john@.com") = Some (msg_field name "must be a valid email address")
  /\ validateEmail name (VString "") = Some (msg_field name "must be a valid email address")
  /\ validateEmail name v = Some (msg_field name "must be a string for email validation")
  /\ msg_field name "must be a string for email validation"
     <> msg_field name "must be a valid email address".
Proof.
  repeat split; try (vm_compute; reflexivity).
  - destruct v; try discriminate Hv; reflexivity.
  - intros H. apply msg_field_inj in H. discriminate H.
Qed.

(** C7: the url rule passes on the empty string and on
    [https://example.com], and fails on [ftp://example.com] and
    [invalid-url]. *)
Theorem validateURL_cases (name : string) :
  validateURL name (VString "") = None
  /\ validateURL name (VString "https://example.com") = None
  /\ validateURL name (VString "ftp://example.com") = Some (msg_field name "must be a valid URL")
  /\ validateURL name (VString "invalid-url") = Some (msg_field name "must be a valid URL").
Proof. repeat split; vm_compute; reflexivity. Qed.

(** C10: [required] passes on every integer, boolean and float; [min] and
    [max] pass on every boolean, map, float and struct, whatever their
    parameter; [email], [url] and [pattern] report a type mismatch on every
    non-string value. *)
Theorem kind_outside_rules (name : string) (v : gvalue) (Hv : is_string v = false) :
  (forall z, validateRequired name (VInt z) = None)
  /\ (forall b, validateRequired name (VBool b) = None)
  /\ (forall f, validateRequired name (VFloat f) = None)
  /\ (forall p b, validateMin name (VBool b) p = None /\ validateMax name (VBool b) p = None)
  /\ (forall p kvs, validateMin name (VMap kvs) p = None /\ validateMax name (VMap kvs) p = None)
  /\ (forall p f, validateMin name (VFloat f) p = None /\ validateMax name (VFloat f) p = None)
  /\ (forall p fs, validateMin name (VStruct fs) p = None /\ validateMax name (VStruct fs) p = None)
  /\ validateEmail name v = Some (msg_field name "must be a string for email validation")
  /\ validateURL name v = Some (msg_field name "must be a string for URL validation")
  /\ (forall p, validatePattern regexp_Compile name v p
                = Some (msg_field name "must be a string for pattern validation")).
Proof.
  repeat split; try reflexivity;
    intros; destruct v; try discriminate Hv; reflexivity.
Qed.

Lemma ruleErrors_unknown (name : string) (value : gvalue) (r : string)
  (Hne : TrimSpace r <> "")
  (Hunk : existsb (String.eqb (hd "" (Split equals (TrimSpace r)))) known_rules = false) :
  ruleErrors regexp_Compile name value r
  = ["unknown validation rule: " ++ hd "" (Split equals (TrimSpace r))].
Proof.
  unfold ruleErrors.
  destruct (String.eqb (TrimSpace r) "") eqn:E; [apply String.eqb_eq in E; contradiction|].
  set (u := hd "" (Split equals (TrimSpace r))) in *.
  unfold known_rules in Hunk. simpl in Hunk.
  repeat (apply orb_false_iff in Hunk as [? Hunk]).
  unfold applyRule.
  repeat match goal with H : String.eqb u _ = false |- _ => rewrite H; clear H end.
  reflexivity.
Qed.

(** C1 (as the code has it): an entry [r] of the tag, at any position,
    whose rule name (the text before its first [=], after trimming white
    space) is not recognized appends "unknown validation rule: <name>" to
    the field's errors at its position, and evaluation goes on: the entries
    after it are evaluated and their violations follow. *)
Theorem validateField_unknown_rule_continues (name : string) (value : gvalue)
  (tag r : string) (before after : list string)
  (Hsplit : Split comma tag = (before ++ r :: after)%list)
  (Hne : TrimSpace r <> "")
  (Hunk : existsb (String.eqb (hd "" (Split equals (TrimSpace r)))) known_rules = false) :
  validateField regexp_Compile name value tag
  = (flat_map (ruleErrors regexp_Compile name value) before
     ++ [String.append "unknown validation rule: " (hd "" (Split equals (TrimSpace r)))]
     ++ flat_map (ruleErrors regexp_Compile name value) after)%list.
Proof.
  rewrite validateField_flat_map, Hsplit, flat_map_app. simpl flat_map.
  rewrite (ruleErrors_unknown name value r Hne Hunk). reflexivity.
Qed.

(** C2: every comma-separated rule of a tag is evaluated, in order, whatever
    the outcome of the rules before it: the errors of the field are the
    concatenation of the errors of each rule, so the message of every
    failing rule is among them. *)
Theorem validateField_all_rules (name : string) (value : gvalue) (rules : list string)
  (Hrules : Forall (fun r => has_char comma r = false) rules) :
  validateField regexp_Compile name value (Join rules ",")
  = flat_map (ruleErrors regexp_Compile name value) rules
  /\ (forall r err, In r rules -> ruleErrors regexp_Compile name value r = [err] ->
       In err (validateField regexp_Compile name value (Join rules ","))).
Proof.
  assert (Heq : validateField regexp_Compile name value (Join rules ",")
                = flat_map (ruleErrors regexp_Compile name value) rules).
  { destruct rules as [|r0 rs]; [reflexivity|].
    rewrite validateField_flat_map.
    change "," with (String comma EmptyString).
    rewrite Split_Join by (discriminate || exact Hrules). reflexivity. }
  split; [exact Heq|].
  intros r err Hin Hr. rewrite Heq. apply in_flat_map.
  exists r. split; [exact Hin|]. rewrite Hr. left; reflexivity.
Qed.

(** C9: a rule whose trimmed text is [nm=p=rest] (no [=] in [nm] nor [p])
    is evaluated as rule [nm] with parameter [p]: the text after the second
    [=] is dropped. *)
Theorem validateField_second_equals_dropped (name : string) (value : gvalue)
  (r nm p rest : string)
  (Htrim : TrimSpace r = nm ++ "=" ++ p ++ "=" ++ rest)
  (Hc : has_char comma r = false)
  (Hnm : has_char equals nm = false) (Hp : has_char equals p = false) :
  validateField regexp_Compile name value r
  = match applyRule regexp_Compile name value nm p with
    | Some err => [err]
    | None => []
    end.
Proof.
  rewrite validateField_flat_map, (Split_no_sep comma r Hc). simpl flat_map.
  rewrite app_nil_r. unfold ruleErrors. rewrite Htrim.
  change ("=" ++ p ++ "=" ++ rest) with (String equals (p ++ String equals rest)).
  assert (Hne : String.eqb (nm ++ String equals (p ++ String equals rest)) "" = false)
    by (destruct nm; reflexivity).
  rewrite Hne, Split_app, Split_app, (Split_no_sep equals nm Hnm),
    (Split_no_sep equals p Hp).
  pose proof (Split_not_nil equals rest) as Hr.
  destruct (Split equals rest) as [|x xs]; [contradiction|].
  reflexivity.
Qed.

Lemma fieldErrors_rules (f : gfield) :
  fieldErrors regexp_Compile f
  = let 'GField name exported tag value := f in
    if exported && negb (String.eqb tag "")
    then flat_map (ruleErrors regexp_Compile name value) (Split comma tag) else [].
Proof.
  destruct f as [name exported tag value]; simpl.
  destruct exported; simpl; [|reflexivity].
  destruct (String.eqb tag ""); simpl; [reflexivity|].
  apply validateField_flat_map.
Qed.

(** C5 (as the code has it): [Validate] on a record, or on a pointer to
    it, returns [nil] when no rule of any field is violated, and otherwise
    one error "validation failed: " followed by every violation, field by
    field in declaration order and rule by rule in tag order, joined with
    "; ". *)
Theorem Validate_aggregate (fs : list gfield) :
  Validate regexp_Compile (VStruct fs)
  = match record_violations regexp_Compile fs with
    | [] => None
    | _ :: _ => Some ("validation failed: " ++ Join (record_violations regexp_Compile fs) "; ")
    end
  /\ Validate regexp_Compile (VPtr (Some (VStruct fs))) = Validate regexp_Compile (VStruct fs).
Proof.
  split; [|reflexivity].
  assert (H : flat_map (fieldErrors regexp_Compile) fs = record_violations regexp_Compile fs).
  { unfold record_violations. apply flat_map_ext. intros f. apply fieldErrors_rules. }
  rewrite Validate_struct, H.
  destruct (record_violations regexp_Compile fs); reflexivity.
Qed.

End Claims.


(** ** [parseInt] *)

Lemma SkipSpace_ascii (c : ascii) (r : string) :
  (byte_of c <? 128)%nat = true -> is_ascii_space c = false ->
  SkipSpace (String c r) = Some (String c r).
Proof.
  intros H1 H2. unfold SkipSpace.
  destruct c as [[] [] [] [] [] [] [] []]; vm_compute in H1, H2;
    try discriminate; vm_compute; reflexivity.
Qed.

Lemma digit_facts (c : ascii) :
  is_digit c = true ->
  (byte_of c <? 128)%nat = true /\ is_ascii_space c = false
  /\ (byte_of c =? 43)%nat = false /\ (byte_of c =? 45)%nat = false.
Proof.
  destruct c as [[] [] [] [] [] [] [] []]; vm_compute; intros H;
    try discriminate; repeat split.
Qed.

Lemma scan_digits_first (r : string) :
  match r with String d _ => negb (is_digit d) | EmptyString => true end = true ->
  scan_digits r = (EmptyString, r).
Proof.
  destruct r as [|d r]; simpl; [reflexivity|].
  intros H. apply negb_true_iff in H. rewrite H. reflexivity.
Qed.

Lemma scan_digits_app (d rest : string) :
  all_digits d = true ->
  match rest with String c _ => negb (is_digit c) | EmptyString => true end = true ->
  scan_digits (d ++ rest) = (d, rest).
Proof.
  intros Hd Hr. induction d as [|c d IH]; simpl.
  - now apply scan_digits_first.
  - simpl in Hd. apply andb_true_iff in Hd as [Hc Hd].
    rewrite Hc, (IH Hd). reflexivity.
Qed.

Lemma decimal_value_acc_nonneg (d : string) (acc : Z) :
  (0 <= acc)%Z -> (0 <= decimal_value_acc acc d)%Z.
Proof.
  revert acc; induction d as [|c d IH]; intros acc H; cbn [decimal_value_acc]; [exact H|].
  apply IH. apply Z.add_nonneg_nonneg; [lia|apply Nat2Z.is_nonneg].
Qed.

Lemma SkipSpace_nonspace (c : ascii) (r : string) :
  space_prefix_len (String c r) = 0%nat -> SkipSpace (String c r) = Some (String c r).
Proof.
  intros H. unfold SkipSpace. cbn [String.length skip_space_fuel].
  destruct (Nat.eqb_spec (byte_of c) 10) as [E|E].
  - exfalso. rewrite <- (ascii_nat_embedding c) in H. unfold byte_of in E.
    rewrite E in H. destruct r; vm_compute in H; discriminate H.
  - rewrite H. reflexivity.
Qed.

Lemma scanInt_junk (c : ascii) (r : string) :
  junk_start (String c r) = true -> scanInt (String c r) = None.
Proof.
  simpl junk_start. intros H.
  apply andb_true_iff in H as [H Hsg]. apply andb_true_iff in H as [Hsp Hdg].
  apply Nat.eqb_eq in Hsp. apply negb_true_iff in Hdg.
  unfold scanInt. rewrite (SkipSpace_nonspace c r Hsp).
  unfold is_sign in Hsg.
  destruct (byte_of c =? 43)%nat eqn:E43; [|destruct (byte_of c =? 45)%nat eqn:E45];
    simpl in Hsg.
  - rewrite (scan_digits_first r Hsg). reflexivity.
  - rewrite (scan_digits_first r Hsg). reflexivity.
  - rewrite (scan_digits_first (String c r)) by (simpl; now rewrite Hdg).
    reflexivity.
Qed.

(** C3 (as the code has it): a [min]/[max] parameter from which [Sscanf]
    reads no leading integer ([junk_start]: empty, or a first character,
    ASCII or not, that is neither white space nor a digit nor a sign
    followed by a digit) is
    treated as 0, and [min] then passes on every string, sequence and
    non-negative integer; a parameter made of a run of digits [d] followed
    by text not starting with a digit is read as the value of [d], or as 0
    when it does not fit a 64-bit [int]. *)
Theorem parseInt_fallback (s d rest : string)
  (Hs : junk_start s = true)
  (Hd : all_digits d && negb (String.eqb d "") = true)
  (Hr : match rest with String c _ => negb (is_digit c) | EmptyString => true end = true) :
  parseInt s = 0%Z
  /\ (forall name v, measure_nonneg v = true -> validateMin name v s = None)
  /\ parseInt (d ++ rest)
     = (if (decimal_value d <=? int64_max)%Z then decimal_value d else 0%Z).
Proof.
  assert (H0 : parseInt s = 0%Z).
  { destruct s as [|c r]; [reflexivity|].
    unfold parseInt. simpl String.eqb. cbv iota beta.
    rewrite (scanInt_junk c r Hs). reflexivity. }
  split; [exact H0|]. split.
  - intros name v Hv. destruct v; simpl; rewrite ?H0; try reflexivity.
    + simpl in Hv. apply Z.leb_le in Hv.
      destruct (z <? 0)%Z eqn:E; [apply Z.ltb_lt in E; lia|reflexivity].
    + destruct (Z.of_nat (String.length s0) <? 0)%Z eqn:E;
        [apply Z.ltb_lt in E; lia|reflexivity].
    + destruct (Z.of_nat (List.length xs) <? 0)%Z eqn:E;
        [apply Z.ltb_lt in E; lia|reflexivity].
    + destruct (Z.of_nat (List.length xs) <? 0)%Z eqn:E;
        [apply Z.ltb_lt in E; lia|reflexivity].
  - apply andb_true_iff in Hd as [Hd Hne].
    destruct d as [|c d']; [discriminate Hne|].
    pose proof Hd as Hd'. simpl in Hd'. apply andb_true_iff in Hd' as [Hc _].
    destruct (digit_facts c Hc) as (Hlt & Hsp & H43 & H45).
    unfold parseInt. simpl (String.eqb (String c d' ++ rest) ""). cbv iota beta.
    unfold scanInt. simpl (String c d' ++ rest).
    rewrite (SkipSpace_ascii c (d' ++ rest) Hlt Hsp). rewrite H43, H45.
    change (String c (d' ++ rest)) with ((String c d') ++ rest).
    rewrite (scan_digits_app (String c d') rest Hd Hr).
    simpl (String.eqb (String c d') "").
    assert (Hmin : (int64_min <=? decimal_value (String c d'))%Z = true).
    { apply Z.leb_le. unfold int64_min, decimal_value.
      pose proof (decimal_value_acc_nonneg (String c d') 0 (Z.le_refl 0)). lia. }
    rewrite Hmin. simpl andb.
    destruct (decimal_value (String c d') <=? int64_max)%Z; reflexivity.
Qed.

(** ** Runs of the model on the fixtures of [validator_test.go] *)

Definition test_product (title description : string) (tags : list gvalue) (price : Z) : gvalue :=
  VStruct [GField "Title" true "required,min=3" (VString title);
           GField "Description" true "max=500" (VString description);
           GField "Tags" true "min=1,max=10" (VSlice tags);
           GField "Price" true "min=0" (VInt price)].

Example slice_validation_runs :
  Validate any_compile
    (test_product "Test Product" "A great product" [VString "tag1"; VString "tag2"] 100) = None
  /\ Validate any_compile (test_product "Test Product" "A great product" [] 100)
     = Some "validation failed: field 'Tags' must have at least 1 items"
  /\ Validate any_compile
       (test_product "Test Product" "A great product" (repeat (VString "tag") 11) 100)
     = Some "validation failed: field 'Tags' must have at most 10 items".
Proof. vm_compute. repeat split. Qed.

(** ** Witnesses: each theorem with hypotheses, applied at a concrete input *)

Lemma validateField_unknown_rule_continues_witness :
  Split comma "len=5,required" = ([] ++ "len=5" :: ["required"])%list
  /\ TrimSpace "len=5" <> ""
  /\ existsb (String.eqb (hd "" (Split equals (TrimSpace "len=5")))) known_rules = false
  /\ validateField any_compile "Field" (VString "") "len=5,required"
     = (flat_map (ruleErrors any_compile "Field" (VString "")) []
        ++ [String.append "unknown validation rule: " (hd "" (Split equals (TrimSpace "len=5")))]
        ++ flat_map (ruleErrors any_compile "Field" (VString "")) ["required"])%list.
Proof.
  assert (H1 : Split comma "len=5,required" = ([] ++ "len=5" :: ["required"])%list)
    by reflexivity.
  assert (H2 : TrimSpace "len=5" <> "") by (vm_compute; discriminate).
  assert (H3 : existsb (String.eqb (hd "" (Split equals (TrimSpace "len=5")))) known_rules = false)
    by (vm_compute; reflexivity).
  exact (conj H1 (conj H2 (conj H3
    (validateField_unknown_rule_continues any_compile "Field" (VString "")
       "len=5,required" "len=5" [] ["required"] H1 H2 H3)))).
Defined.

Lemma validateField_all_rules_witness :
  Forall (fun r => has_char comma r = false) ["required"; "min=2"; "email"]
  /\ validateField any_compile "Email" (VString "") (Join ["required"; "min=2"; "email"] ",")
     = flat_map (ruleErrors any_compile "Email" (VString "")) ["required"; "min=2"; "email"]
  /\ (forall r err, In r ["required"; "min=2"; "email"] ->
       ruleErrors any_compile "Email" (VString "") r = [err] ->
       In err (validateField any_compile "Email" (VString "") (Join ["required"; "min=2"; "email"] ","))).
Proof.
  assert (H : Forall (fun r => has_char comma r = false) ["required"; "min=2"; "email"])
    by (repeat constructor).
  exact (conj H (validateField_all_rules any_compile "Email" (VString "") _ H)).
Defined.

Lemma parseInt_fallback_witness :
  junk_start (bytes [226; 136; 146] ++ "5") = true
  /\ all_digits "12" && negb (String.eqb "12" "") = true
  /\ parseInt (bytes [226; 136; 146] ++ "5") = 0%Z
  /\ (forall name v, measure_nonneg v = true -> validateMin name v (bytes [226; 136; 146] ++ "5") = None)
  /\ parseInt ("12" ++ "abc")
     = (if (decimal_value "12" <=? int64_max)%Z then decimal_value "12" else 0%Z).
Proof.
  assert (H1 : junk_start (bytes [226; 136; 146] ++ "5") = true) by (vm_compute; reflexivity).
  assert (H2 : all_digits "12" && negb (String.eqb "12" "") = true) by reflexivity.
  assert (H3 : (match "abc" with String c _ => negb (is_digit c) | EmptyString => true end) = true)
    by reflexivity.
  exact (conj H1 (conj H2 (parseInt_fallback (bytes [226; 136; 146] ++ "5") "12" "abc" H1 H2 H3))).
Defined.

Lemma Validate_nil_or_not_struct_witness :
  is_struct (VInt 5) = false /\ is_ptr (VString "x") || is_struct (VString "x") = false
  /\ Validate any_compile (VPtr None) = Some "validation target cannot be nil"
  /\ Validate any_compile (VPtr (Some (VInt 5))) = Some "validation target must be a struct"
  /\ Validate any_compile (VString "x") = Some "validation target must be a struct"
  /\ "validation target cannot be nil" <> "validation target must be a struct".
Proof.
  assert (H1 : is_struct (VInt 5) = false) by reflexivity.
  assert (H2 : is_ptr (VString "x") || is_struct (VString "x") = false) by reflexivity.
  exact (conj H1 (conj H2
    (Validate_nil_or_not_struct any_compile (VInt 5) (VString "x") H1 H2))).
Defined.

Lemma validateEmail_cases_witness :
  is_string (VInt 3) = false
  /\ validateEmail "Email" (VString "user.name@domain.co.uk") = None
  /\ validateEmail "Email" (VString "test+tag@example.org") = None
  /\ validateEmail "Email" (VString "invalid-email") = Some (msg_field "Email" "must be a valid email address")
  /\ validateEmail "Email" (VString "@example.com") = Some (msg_field "Email" "must be a valid email address")
  /\ validateEmail "Email" (VString "john@") = Some (msg_field "Email" "must be a valid email address")
  /\ validateEmail "Email" (VString "john@.com") = Some (msg_field "Email" "must be a valid email address")
  /\ validateEmail "Email" (VString "") = Some (msg_field "Email" "must be a valid email address")
  /\ validateEmail "Email" (VInt 3) = Some (msg_field "Email" "must be a string for email validation")
  /\ msg_field "Email" "must be a string for email validation"
     <> msg_field "Email" "must be a valid email address".
Proof.
  assert (H : is_string (VInt 3) = false) by reflexivity.
  exact (conj H (validateEmail_cases "Email" (VInt 3) H)).
Defined.

Lemma validateField_second_equals_dropped_witness :
  TrimSpace "pattern=^a=b$" = "pattern" ++ "=" ++ "^a" ++ "=" ++ "b$"
  /\ has_char comma "pattern=^a=b$" = false
  /\ has_char equals "pattern" = false /\ has_char equals "^a" = false
  /\ validateField any_compile "Username" (VString "ab") "pattern=^a=b$"
     = match applyRule any_compile "Username" (VString "ab") "pattern" "^a" with
       | Some err => [err]
       | None => []
       end.
Proof.
  assert (H1 : TrimSpace "pattern=^a=b$" = "pattern" ++ "=" ++ "^a" ++ "=" ++ "b$")
    by (vm_compute; reflexivity).
  assert (H2 : has_char comma "pattern=^a=b$" = false) by reflexivity.
  assert (H3 : has_char equals "pattern" = false) by reflexivity.
  assert (H4 : has_char equals "^a" = false) by reflexivity.
  exact (conj H1 (conj H2 (conj H3 (conj H4
    (validateField_second_equals_dropped any_compile "Username" (VString "ab")
       "pattern=^a=b$" "pattern" "^a" "b$" H1 H2 H3 H4))))).
Defined.

Lemma kind_outside_rules_witness :
  is_string (VBool true) = false
  /\ (forall z, validateRequired "Active" (VInt z) = None)
  /\ (forall b, validateRequired "Active" (VBool b) = None)
  /\ (forall f, validateRequired "Active" (VFloat f) = None)
  /\ (forall p b, validateMin "Active" (VBool b) p = None /\ validateMax "Active" (VBool b) p = None)
  /\ (forall p kvs, validateMin "Active" (VMap kvs) p = None /\ validateMax "Active" (VMap kvs) p = None)
  /\ (forall p f, validateMin "Active" (VFloat f) p = None /\ validateMax "Active" (VFloat f) p = None)
  /\ (forall p fs, validateMin "Active" (VStruct fs) p = None /\ validateMax "Active" (VStruct fs) p = None)
  /\ validateEmail "Active" (VBool true) = Some (msg_field "Active" "must be a string for email validation")
  /\ validateURL "Active" (VBool true) = Some (msg_field "Active" "must be a string for URL validation")
  /\ (forall p, validatePattern any_compile "Active" (VBool true) p
                = Some (msg_field "Active" "must be a string for pattern validation")).
Proof.
  assert (H : is_string (VBool true) = false) by reflexivity.
  exact (conj H (kind_outside_rules any_compile "Active" (VBool true) H)).
Defined.

(** ** Counterexamples *)

(** C1: a rule after an unknown rule is still evaluated and reported. *)
Lemma unknown_rule_does_not_stop_field_cex :
  Validate any_compile (VStruct [GField "Field" true "unknown_rule,required" (VString "")])
  = Some "validation failed: unknown validation rule: unknown_rule; field 'Field' is required"
  /\ In "field 'Field' is required"
       (validateField any_compile "Field" (VString "") "unknown_rule,required").
Proof. split; vm_compute; [reflexivity|right; left; reflexivity]. Qed.

(** C3: ["12abc"] is not an integer literal, yet it is read as 12, not 0. *)
Lemma parseInt_numeric_prefix_cex :
  int_literal "12abc" = false /\ parseInt "12abc" = 12%Z
  /\ validateMin "Code" (VString "abc") "12abc"
     = Some "field 'Code' must be at least 12abc characters".
Proof. vm_compute. repeat split. Qed.

(** C5: the aggregate message is prefixed with ["validation failed: "]; it
    is not the bare join of the violations. *)
Lemma Validate_message_prefix_cex :
  record_violations any_compile [GField "Name" true "required" (VString "")]
    = ["field 'Name' is required"]
  /\ Validate any_compile (VStruct [GField "Name" true "required" (VString "")])
     = Some "validation failed: field 'Name' is required"
  /\ Validate any_compile (VStruct [GField "Name" true "required" (VString "")])
     <> Some (Join (record_violations any_compile [GField "Name" true "required" (VString "")]) "; ").
Proof. vm_compute. split; [reflexivity|split; [reflexivity|discriminate]]. Qed.

(* ================================================================== *)
(** * Further properties of the code *)

(** ** The configuration store *)

Lemma map_lookup_set_same (k v : string) (m : Config.store) :
  Config.map_lookup k (Config.map_set k v m) = Some v.
Proof. unfold Config.map_lookup, Config.map_set. simpl. now rewrite String.eqb_refl. Qed.

Lemma map_lookup_set_other (k k' v : string) (m : Config.store) :
  k <> k' -> Config.map_lookup k' (Config.map_set k v m) = Config.map_lookup k' m.
Proof.
  intros Hne. unfold Config.map_lookup, Config.map_set. simpl.
  destruct (String.eqb_spec k k') as [E|_]; [contradiction|].
  induction m as [|[k0 v0] m IH]; simpl; [reflexivity|].
  destruct (String.eqb_spec k0 k) as [->|Hk0]; simpl.
  - destruct (String.eqb_spec k k') as [E|_]; [contradiction|exact IH].
  - destruct (String.eqb k0 k'); [reflexivity|exact IH].
Qed.

(** [Set] then [Get]: the key reads back the value just set and exists;
    every other key keeps its value and its existence. *)
Theorem config_set_get (c : Config.Config) (k v : string) :
  Config.Get (Config.Set_ c k v) k = v
  /\ Config.Exists (Config.Set_ c k v) k = true
  /\ (forall k', k' <> k ->
        Config.Get (Config.Set_ c k v) k' = Config.Get c k'
        /\ Config.Exists (Config.Set_ c k v) k' = Config.Exists c k').
Proof.
  unfold Config.Get, Config.Exists, Config.Set_; simpl.
  rewrite map_lookup_set_same. split; [reflexivity|]. split; [reflexivity|].
  intros k' Hne. rewrite map_lookup_set_other by congruence. split; reflexivity.
Qed.

(** [GetRequired] never returns an empty value: when it returns, the value
    is the non-empty [Get] of the key and [GetWithDefault] returns it too;
    when it panics, [GetWithDefault] falls back to its default. *)
Theorem config_required_vs_default (c : Config.Config) (k : string) :
  (forall v, Config.GetRequired c k = inr v ->
     v <> "" /\ Config.Get c k = v /\ forall d, Config.GetWithDefault c k d = v)
  /\ (forall m, Config.GetRequired c k = inl m ->
        m = "required configuration key '" ++ k ++ "' not found or empty"
        /\ forall d, Config.GetWithDefault c k d = d).
Proof.
  unfold Config.GetRequired, Config.Get, Config.GetWithDefault.
  destruct (Config.map_lookup k (Config.values c)) as [value|].
  - destruct (String.eqb_spec value "") as [->|Hne]; simpl.
    + split; intros x H; [discriminate|]. injection H as <-. split; auto.
    + split; intros x H; [|discriminate]. injection H as <-. auto.
  - split; intros x H; [discriminate|]. injection H as <-. auto.
Qed.

Lemma Atoi_int_literal (s : string) (z : Z) :
  Config.Atoi s = Some z -> int_literal s = true.
Proof.
  destruct s as [|c r]; [discriminate|].
  unfold Config.Atoi, int_literal. intros H.
  destruct (byte_of c =? 45)%nat eqn:E45; [|destruct (byte_of c =? 43)%nat eqn:E43];
    rewrite ?orb_true_r, ?orb_true_l, ?orb_false_r;
    [set (b := r) in H |- * | set (b := r) in H |- * | set (b := String c r) in H |- *];
    destruct (String.eqb b "") eqn:Er; [discriminate| |discriminate| |discriminate|];
    destruct (all_digits b); [reflexivity|discriminate|reflexivity|discriminate|reflexivity|discriminate].
Qed.

(** [GetInt]: a missing key is [KeyNotFound]; a value set as a run of
    decimal digits within the 64-bit range reads back as its value; any
    value that [strconv.Atoi] does not take as a whole-string integer
    literal (so also [" 5"] or ["12abc"], which the validator's [parseInt]
    reads as 5 and 12) is a [ParseFailed] error, and [GetIntWithDefault]
    then returns its default. *)
Theorem config_getint (c : Config.Config) (k d s : string) (dflt : Z)
  (Hd : all_digits d && negb (String.eqb d "") = true)
  (Hrange : (decimal_value d <=? int64_max)%Z = true)
  (Hs : int_literal s = false) :
  (Config.map_lookup k (Config.values c) = None -> Config.GetInt c k = inr (Config.KeyNotFound k))
  /\ Config.GetInt (Config.Set_ c k d) k = inl (decimal_value d)
  /\ Config.GetInt (Config.Set_ c k s) k = inr (Config.ParseFailed k "int" s)
  /\ Config.GetIntWithDefault (Config.Set_ c k s) k dflt = dflt.
Proof.
  assert (Hfail : Config.GetInt (Config.Set_ c k s) k = inr (Config.ParseFailed k "int" s)).
  { unfold Config.GetInt, Config.Set_; simpl. rewrite map_lookup_set_same.
    destruct (Config.Atoi s) eqn:E; [|reflexivity].
    apply Atoi_int_literal in E. congruence. }
  split; [intros H; unfold Config.GetInt; now rewrite H|].
  split.
  - unfold Config.GetInt, Config.Set_; simpl. rewrite map_lookup_set_same.
    apply andb_true_iff in Hd as [Hd Hne].
    destruct d as [|c0 d']; [discriminate Hne|].
    pose proof Hd as Hd'. simpl in Hd'. apply andb_true_iff in Hd' as [Hc _].
    destruct (digit_facts c0 Hc) as (_ & _ & H43 & H45).
    unfold Config.Atoi. rewrite H45, H43. simpl (String.eqb (String c0 d') "").
    rewrite Hd. simpl.
    assert (Hmin : (int64_min <=? decimal_value (String c0 d'))%Z = true).
    { apply Z.leb_le. unfold int64_min, decimal_value.
      pose proof (decimal_value_acc_nonneg (String c0 d') 0 (Z.le_refl 0)). lia. }
    rewrite Hmin, Hrange. reflexivity.
  - split; [exact Hfail|]. unfold Config.GetIntWithDefault. now rewrite Hfail.
Qed.

Lemma Join_comma_empty (xs : list string) :
  Join xs "," = "" -> xs = [] \/ xs = [""].
Proof.
  destruct xs as [|x [|y ys]]; simpl; intros H; [auto|subst; auto|].
  destruct x; discriminate.
Qed.

Lemma GetStringSlice_fold (l acc : list string) :
  fold_left (fun result part =>
    let trimmed := TrimSpace part in
    if negb (String.eqb trimmed "") then (result ++ [trimmed])%list else result) l acc
  = (acc ++ filter (fun t => negb (String.eqb t "")) (map TrimSpace l))%list.
Proof.
  revert acc; induction l as [|x l IH]; intros acc; simpl; [now rewrite app_nil_r|].
  destruct (negb (String.eqb (TrimSpace x) "")); rewrite IH; [|reflexivity].
  now rewrite <- app_assoc.
Qed.

(** [GetStringSlice] of a value written as comma-separated parts: the
    parts, each trimmed of white space, with the parts that are empty after
    trimming left out, in order.  So a list of comma-free parts that are
    non-empty and have no surrounding white space reads back as itself. *)
Theorem config_string_slice (c : Config.Config) (k : string) (xs : list string)
  (Hxs : Forall (fun x => has_char comma x = false) xs) :
  Config.GetStringSlice (Config.Set_ c k (Join xs ",")) k
  = filter (fun t => negb (String.eqb t "")) (map TrimSpace xs).
Proof.
  unfold Config.GetStringSlice, Config.Set_; simpl. rewrite map_lookup_set_same.
  destruct (String.eqb_spec (Join xs ",") "") as [E|E].
  - apply Join_comma_empty in E as [E|E]; rewrite E; reflexivity.
  - change "," with (String comma EmptyString). rewrite Split_Join.
    + apply GetStringSlice_fold.
    + intros ->. apply E. reflexivity.
    + exact Hxs.
Qed.

Lemma Config_Validate_fold (c : Config.Config) (keys acc : list string) :
  fold_left (fun missing key =>
    if negb (Config.Exists c key) || String.eqb (Config.Get c key) ""
    then (missing ++ [key])%list else missing) keys acc
  = (acc ++ filter (fun key => String.eqb (Config.Get c key) "") keys)%list.
Proof.
  revert acc; induction keys as [|key keys IH]; intros acc; simpl; [now rewrite app_nil_r|].
  assert (E : negb (Config.Exists c key) || String.eqb (Config.Get c key) ""
              = String.eqb (Config.Get c key) "").
  { unfold Config.Exists, Config.Get. destruct (Config.map_lookup key (Config.values c)); reflexivity. }
  rewrite E. destruct (String.eqb (Config.Get c key) ""); rewrite IH; [|reflexivity].
  now rewrite <- app_assoc.
Qed.

(** [Config.Validate] succeeds exactly when every required key has a
    non-empty value (a missing key reads as empty); otherwise its error
    lists, in the order given and separated by [", "], every required key
    whose value is missing or empty. *)
Theorem config_validate (c : Config.Config) (requiredKeys : list string) :
  (Config.Validate c requiredKeys = None
     <-> Forall (fun key => Config.Get c key <> "") requiredKeys)
  /\ (forall m, Config.Validate c requiredKeys = Some m ->
      m = "missing required configuration keys: "
          ++ Join (filter (fun key => String.eqb (Config.Get c key) "") requiredKeys) ", ").
Proof.
  unfold Config.Validate. rewrite Config_Validate_fold. simpl.
  split.
  - destruct (filter (fun key => String.eqb (Config.Get c key) "") requiredKeys) eqn:F.
    + split; [intros _|reflexivity].
      apply Forall_forall. intros key Hin Hk.
      assert (In key (filter (fun key => String.eqb (Config.Get c key) "") requiredKeys)).
      { apply filter_In. split; [exact Hin|]. now rewrite Hk. }
      rewrite F in H. contradiction.
    + split; [discriminate|]. intros Hall.
      assert (Hin : In s (filter (fun key => String.eqb (Config.Get c key) "") requiredKeys))
        by (rewrite F; left; reflexivity).
      apply filter_In in Hin as [Hin Hs]. apply String.eqb_eq in Hs.
      rewrite Forall_forall in Hall. exfalso. exact (Hall s Hin Hs).
  - intros m. destruct (filter _ requiredKeys); [discriminate|].
    intros H. injection H as <-. reflexivity.
Qed.

Lemma SplitN2_key_value (k v : string) :
  has_char equals k = false -> Config.SplitN2 equals (k ++ String equals v) = Some (k, v).
Proof.
  induction k as [|a k IH]; simpl; intros H; [reflexivity|].
  apply orb_false_iff in H as [Ha Hk]. rewrite Ha, (IH Hk). reflexivity.
Qed.

Lemma SplitN2_no_sep (e : string) :
  has_char equals e = false -> Config.SplitN2 equals e = None.
Proof.
  induction e as [|a e IH]; simpl; intros H; [reflexivity|].
  apply orb_false_iff in H as [Ha He]. rewrite Ha, (IH He). reflexivity.
Qed.

Lemma LoadFromEnv_app_cons (c : Config.Config) (env1 env2 : list string) (e : string) :
  Config.LoadFromEnv c (env1 ++ e :: env2)
  = Config.LoadFromEnv (match Config.SplitN2 equals e with
                        | Some (k, v) => Config.Set_ (Config.LoadFromEnv c env1) k v
                        | None => Config.LoadFromEnv c env1 end) env2.
Proof. unfold Config.LoadFromEnv. rewrite fold_left_app. reflexivity. Qed.

Lemma LoadFromEnv_other_keys (c : Config.Config) (env : list string) (k : string) :
  Forall (fun e => match Config.SplitN2 equals e with
                   | Some (k', _) => k' <> k | None => True end) env ->
  Config.map_lookup k (Config.values (Config.LoadFromEnv c env))
  = Config.map_lookup k (Config.values c).
Proof.
  revert c; induction env as [|e env IH]; intros c Hall; [reflexivity|].
  inversion Hall as [|? ? He Henv]; subst.
  rewrite (LoadFromEnv_app_cons c [] env e : Config.LoadFromEnv c (e :: env) = _).
  rewrite (IH _ Henv).
  destruct (Config.SplitN2 equals e) as [[k' v']|]; [|reflexivity].
  unfold Config.Set_; simpl. now apply map_lookup_set_other.
Qed.

(** [LoadFromEnv] splits each entry at its first [=]: an entry [k=v],
    whose key has no [=] (the value may), sets [k] to [v] unless a later
    entry sets the same key; an entry with no [=] changes nothing. *)
Theorem config_load_from_env (c : Config.Config) (env1 env2 : list string) (k v : string)
  (Hk : has_char equals k = false)
  (Hlater : Forall (fun e => match Config.SplitN2 equals e with
                             | Some (k', _) => k' <> k | None => True end) env2) :
  Config.Get (Config.LoadFromEnv c (env1 ++ (k ++ "=" ++ v) :: env2)) k = v
  /\ Config.Exists (Config.LoadFromEnv c (env1 ++ (k ++ "=" ++ v) :: env2)) k = true
  /\ (forall e rest, has_char equals e = false ->
        Config.LoadFromEnv c (e :: rest) = Config.LoadFromEnv c rest).
Proof.
  assert (Hl : Config.map_lookup k
                 (Config.values (Config.LoadFromEnv c (env1 ++ (k ++ "=" ++ v) :: env2)))
               = Some v).
  { rewrite LoadFromEnv_app_cons.
    change ("=" ++ v) with (String equals v). rewrite (SplitN2_key_value k v Hk).
    rewrite (LoadFromEnv_other_keys _ env2 k Hlater).
    unfold Config.Set_; simpl. apply map_lookup_set_same. }
  unfold Config.Get, Config.Exists. rewrite Hl.
  split; [reflexivity|]. split; [reflexivity|].
  intros e rest He. unfold Config.LoadFromEnv; simpl. now rewrite (SplitN2_no_sep e He).
Qed.

(** ** The identifier generators *)

Lemma hex_digit_lower_hex (n : nat) : is_lower_hex (Providers.hex_digit n) = true.
Proof. do 16 (destruct n as [|n]; [reflexivity|]). reflexivity. Qed.

Lemma hex_digit_inj (n m : nat) :
  (n < 16)%nat -> (m < 16)%nat -> Providers.hex_digit n = Providers.hex_digit m -> n = m.
Proof.
  intros Hn Hm.
  do 16 (destruct n as [|n];
         [do 16 (destruct m as [|m]; [first [reflexivity | discriminate] |]); lia |]).
  lia.
Qed.

Lemma hex_pair_inj (a b : ascii) :
  Providers.hex_digit (byte_of a / 16) = Providers.hex_digit (byte_of b / 16) ->
  Providers.hex_digit (byte_of a mod 16) = Providers.hex_digit (byte_of b mod 16) ->
  a = b.
Proof.
  intros Hq Hr.
  pose proof (nat_ascii_bounded a) as Ha. pose proof (nat_ascii_bounded b) as Hb.
  unfold byte_of in *.
  apply hex_digit_inj in Hq; [| apply Nat.Div0.div_lt_upper_bound; lia
                              | apply Nat.Div0.div_lt_upper_bound; lia].
  apply hex_digit_inj in Hr; [| apply Nat.mod_upper_bound; lia | apply Nat.mod_upper_bound; lia].
  rewrite <- (ascii_nat_embedding a), <- (ascii_nat_embedding b). f_equal.
  rewrite (Nat.div_mod_eq (nat_of_ascii a) 16), (Nat.div_mod_eq (nat_of_ascii b) 16).
  now rewrite Hq, Hr.
Qed.

Lemma EncodeToString_length (bs : list ascii) :
  String.length (Providers.EncodeToString bs) = (2 * List.length bs)%nat.
Proof. induction bs as [|b bs IH]; simpl; [reflexivity|]. rewrite IH. lia. Qed.

Lemma EncodeToString_lower_hex (bs : list ascii) :
  all_lower_hex (Providers.EncodeToString bs) = true.
Proof.
  induction bs as [|b bs IH]; simpl; [reflexivity|].
  now rewrite !hex_digit_lower_hex, IH.
Qed.

Lemma EncodeToString_inj (bs cs : list ascii) :
  Providers.EncodeToString bs = Providers.EncodeToString cs -> bs = cs.
Proof.
  revert cs; induction bs as [|b bs IH]; intros [|c cs]; simpl; intros H;
    try discriminate; [reflexivity|].
  injection H as Hq Hr H. f_equal; [now apply hex_pair_inj | now apply IH].
Qed.

Lemma app_inj_len (a a' b b' : string) :
  String.length a = String.length a' -> a ++ b = a' ++ b' -> a = a' /\ b = b'.
Proof.
  revert a'; induction a as [|c a IH]; intros [|c' a'] Hl H; simpl in *;
    try discriminate; [auto|].
  injection H as -> H. injection Hl as Hl. destruct (IH a' Hl H) as [-> ->]. auto.
Qed.

Lemma UUIDGenerate_parts (f : nat -> ascii) (now : Z) :
  Providers.UUIDGenerate (Some f) now
  = Providers.EncodeToString [f 0; f 1; f 2; f 3]%nat ++ "-" ++
    Providers.EncodeToString [f 4; f 5]%nat ++ "-" ++
    Providers.EncodeToString [f 6; f 7]%nat ++ "-" ++
    Providers.EncodeToString [f 8; f 9]%nat ++ "-" ++
    Providers.EncodeToString [f 10; f 11; f 12; f 13; f 14; f 15]%nat.
Proof. reflexivity. Qed.

(** [UUIDGenerator.Generate], when [crypto/rand.Read] succeeds, returns
    five groups of 8, 4, 4, 4 and 12 lower-case hexadecimal digits joined
    by [-] (36 bytes), and [PrefixedIDGenerator.Generate] the same after
    [prefix-]; the identifier encodes all 16 random bytes, so two reads
    that differ in any byte give different identifiers. *)
Theorem uuid_generate_format (f : nat -> ascii) (now : Z) (prefix : string) :
  (exists p1 p2 p3 p4 p5,
     Providers.UUIDGenerate (Some f) now = p1 ++ "-" ++ p2 ++ "-" ++ p3 ++ "-" ++ p4 ++ "-" ++ p5
     /\ String.length p1 = 8%nat /\ String.length p2 = 4%nat /\ String.length p3 = 4%nat
     /\ String.length p4 = 4%nat /\ String.length p5 = 12%nat
     /\ Forall (fun p => all_lower_hex p = true) [p1; p2; p3; p4; p5])
  /\ String.length (Providers.UUIDGenerate (Some f) now) = 36%nat
  /\ Providers.PrefixedGenerate prefix (Some f) now
     = prefix ++ "-" ++ Providers.UUIDGenerate (Some f) now
  /\ (forall (g : nat -> ascii) (now' : Z),
        Providers.UUIDGenerate (Some f) now = Providers.UUIDGenerate (Some g) now' ->
        forall i, (i < 16)%nat -> f i = g i).
Proof.
  split; [|split; [|split]].
  - exists (Providers.EncodeToString [f 0; f 1; f 2; f 3]%nat),
      (Providers.EncodeToString [f 4; f 5]%nat), (Providers.EncodeToString [f 6; f 7]%nat),
      (Providers.EncodeToString [f 8; f 9]%nat),
      (Providers.EncodeToString [f 10; f 11; f 12; f 13; f 14; f 15]%nat).
    split; [reflexivity|].
    rewrite !EncodeToString_length.
    repeat split; try reflexivity.
    repeat constructor; apply EncodeToString_lower_hex.
  - reflexivity.
  - reflexivity.
  - intros g now' H i Hi.
    rewrite (UUIDGenerate_parts f now), (UUIDGenerate_parts g now') in H.
    apply app_inj_len in H as [H1 H]; [|now rewrite !EncodeToString_length].
    apply append_cancel_l in H.
    apply app_inj_len in H as [H2 H]; [|now rewrite !EncodeToString_length].
    apply append_cancel_l in H.
    apply app_inj_len in H as [H3 H]; [|now rewrite !EncodeToString_length].
    apply append_cancel_l in H.
    apply app_inj_len in H as [H4 H]; [|now rewrite !EncodeToString_length].
    apply append_cancel_l in H.
    apply EncodeToString_inj in H1, H2, H3, H4, H.
    injection H1; injection H2; injection H3; injection H4; injection H; intros.
    do 16 (destruct i as [|i]; [assumption|]). lia.
Qed.

Lemma substring_0_length (n : nat) (s : string) :
  (n <= String.length s)%nat -> String.length (substring 0 n s) = n.
Proof.
  revert s; induction n as [|n IH]; intros [|c s]; simpl; intros H; try lia; try reflexivity.
  rewrite IH; lia.
Qed.

Lemma substring_0_lower_hex (n : nat) (s : string) :
  all_lower_hex s = true -> all_lower_hex (substring 0 n s) = true.
Proof.
  revert s; induction n as [|n IH]; intros [|c s]; simpl; intros H; try reflexivity.
  apply andb_true_iff in H as [Hc Hs]. now rewrite Hc, IH.
Qed.

Lemma string_of_hex_uint_lower_hex (d : Hexadecimal.uint) :
  all_lower_hex (Providers.string_of_hex_uint d) = true.
Proof. induction d; simpl; rewrite ?IHd; reflexivity. Qed.

Lemma substring_full (s : string) : substring 0 (String.length s) s = s.
Proof. induction s as [|c s IH]; simpl; [reflexivity|]. now rewrite IH. Qed.

Lemma HexGenerate_random_cases (L : Z) (f : nat -> ascii) (now : Z) :
  (0 <= L)%Z ->
  Providers.HexGenerate L (Some f) now
  = if ((Providers.maxAlloc <? 2 * (L / 2)) || negb (L =? 2 * (L / 2)))%Z then None
    else Some (Providers.EncodeToString (map f (List.seq 0 (Z.to_nat (L / 2))))).
Proof.
  intros HL. unfold Providers.HexGenerate.
  rewrite Z.quot_div_nonneg by lia.
  assert (Hd : (0 <= L / 2)%Z) by (apply Z.div_pos; lia).
  pose proof (Z.div_mod L 2 ltac:(lia)) as Hdm. pose proof (Z.mod_pos_bound L 2 ltac:(lia)) as Hmb.
  replace ((L / 2 <? 0)%Z) with false by (symmetry; apply Z.ltb_ge; lia). rewrite orb_false_l.
  destruct (Z.ltb_spec Providers.maxAlloc (L / 2)) as [H1|H1].
  { replace ((Providers.maxAlloc <? 2 * (L / 2))%Z) with true
      by (symmetry; apply Z.ltb_lt; unfold Providers.maxAlloc in *; lia). reflexivity. }
  destruct (Z.ltb_spec Providers.maxAlloc (2 * (L / 2))) as [H2|H2]; [reflexivity|].
  rewrite orb_false_l. unfold Providers.slice_prefix.
  rewrite EncodeToString_length, length_map, length_seq.
  replace (0 <=? L)%Z with true by (symmetry; apply Z.leb_le; lia). rewrite andb_true_l.
  destruct (Z.eqb_spec L (2 * (L / 2))) as [E|E]; cbn [negb].
  - replace ((L <=? Z.of_nat (2 * Z.to_nat (L / 2)))%Z) with true
      by (symmetry; apply Z.leb_le; lia).
    f_equal.
    set (e := Providers.EncodeToString (map f (List.seq 0 (Z.to_nat (L / 2))))).
    assert (Hl : String.length e = Z.to_nat L).
    { unfold e. rewrite EncodeToString_length, length_map, length_seq. lia. }
    rewrite <- Hl. apply substring_full.
  - replace ((L <=? Z.of_nat (2 * Z.to_nat (L / 2)))%Z) with false
      by (symmetry; apply Z.leb_gt; lia).
    reflexivity.
Qed.

(** [NewHexIDGenerator] gives a positive length, 16 for a length that is
    not positive.  With [crypto/rand.Read] succeeding, [Generate] then
    returns that many lower-case hexadecimal digits when the length is
    even and within the runtime's allocation limit [maxAlloc]; it panics
    when the length is odd (slice bounds out of range, since it only draws
    [length/2] bytes) and when the length exceeds [maxAlloc] (the buffer of
    [hex.EncodeToString] cannot be allocated). *)
Theorem hex_generate_random (length : Z) (f : nat -> ascii) (now : Z) :
  let L := Providers.NewHexIDGenerator length in
  (0 < L)%Z /\ ((length <= 0)%Z -> L = 16%Z)
  /\ (Z.even L = true -> (L <= Providers.maxAlloc)%Z ->
       exists s, Providers.HexGenerate L (Some f) now = Some s
                 /\ String.length s = Z.to_nat L
                 /\ all_lower_hex s = true)
  /\ (Z.odd L = true -> Providers.HexGenerate L (Some f) now = None)
  /\ ((Providers.maxAlloc < L)%Z -> Providers.HexGenerate L (Some f) now = None).
Proof.
  intros L.
  assert (HL : (0 < L)%Z) by (unfold L, Providers.NewHexIDGenerator; destruct (Z.leb_spec length 0); lia).
  split; [exact HL|]. split.
  { unfold L, Providers.NewHexIDGenerator. intros H. now apply Z.leb_le in H as ->. }
  rewrite (HexGenerate_random_cases L f now ltac:(lia)).
  pose proof (Z.div_mod L 2 ltac:(lia)) as Hdm. pose proof (Z.mod_pos_bound L 2 ltac:(lia)) as Hmb.
  split; [|split].
  - intros He Hmax. rewrite Zmod_even, He in Hdm.
    replace ((Providers.maxAlloc <? 2 * (L / 2))%Z) with false by (symmetry; apply Z.ltb_ge; lia).
    replace ((L =? 2 * (L / 2))%Z) with true by (symmetry; apply Z.eqb_eq; lia).
    eexists; split; [reflexivity|]. split.
    + rewrite EncodeToString_length, length_map, length_seq. lia.
    + apply EncodeToString_lower_hex.
  - intros Ho. rewrite Zmod_odd, Ho in Hdm.
    replace ((L =? 2 * (L / 2))%Z) with false by (symmetry; apply Z.eqb_neq; lia).
    now rewrite orb_true_r.
  - intros Hmax.
    destruct (Z.eqb_spec L (2 * (L / 2))) as [E|E]; [|now rewrite orb_true_r].
    replace ((Providers.maxAlloc <? 2 * (L / 2))%Z) with true by (symmetry; apply Z.ltb_lt; lia).
    reflexivity.
Qed.

Lemma little_hex_double_digits (d : Hexadecimal.uint) :
  (Hexadecimal.nb_digits (Hexadecimal.Little.double d) <= S (Hexadecimal.nb_digits d))%nat
  /\ (Hexadecimal.nb_digits (Hexadecimal.Little.succ_double d) <= S (Hexadecimal.nb_digits d))%nat.
Proof. induction d; simpl; lia. Qed.

Lemma little_hex_digits (p : positive) :
  (Hexadecimal.nb_digits (Pos.to_little_hex_uint p) <= Pos.size_nat p)%nat.
Proof.
  induction p as [p IH|p IH|]; simpl; [| |reflexivity].
  - pose proof (proj2 (little_hex_double_digits (Pos.to_little_hex_uint p))). lia.
  - pose proof (proj1 (little_hex_double_digits (Pos.to_little_hex_uint p))). lia.
Qed.

Lemma hex_revapp_digits (d d' : Hexadecimal.uint) :
  Hexadecimal.nb_digits (Hexadecimal.revapp d d')
  = (Hexadecimal.nb_digits d + Hexadecimal.nb_digits d')%nat.
Proof. revert d'; induction d; intros d'; simpl; try rewrite IHd; simpl; lia. Qed.

Lemma string_of_hex_uint_length (d : Hexadecimal.uint) :
  String.length (Providers.string_of_hex_uint d) = Hexadecimal.nb_digits d.
Proof. induction d; simpl; rewrite ?IHd; reflexivity. Qed.

(** The [%x] text of a positive 64-bit value has at most 64 digits. *)
Lemma fmt_x_int64_length (now : Z) :
  (0 < now)%Z -> (now <= int64_max)%Z -> (String.length (Providers.fmt_x now) <= 64)%nat.
Proof.
  intros H0 H1. destruct now as [|p|p]; try lia. unfold Providers.fmt_x.
  rewrite string_of_hex_uint_length. unfold Pos.to_hex_uint, Hexadecimal.rev.
  rewrite hex_revapp_digits. simpl Hexadecimal.nb_digits. rewrite Nat.add_0_r.
  pose proof (little_hex_digits p).
  assert (Hlt : (p < 2 ^ 63)%positive) by (unfold int64_max in H1; lia).
  pose proof (Pos.size_nat_monotone _ _ Hlt) as Hs.
  assert (H63 : Pos.size_nat (2 ^ 63) = 64%nat) by (vm_compute; reflexivity). lia.
Qed.

(** When [crypto/rand.Read] fails, [HexIDGenerator.Generate] slices the
    [%x] text of the clock: for a positive clock value (an [int64]) it
    panics exactly when the length exceeds the number of hexadecimal digits
    of that value, and otherwise returns that many lower-case hexadecimal
    digits. *)
Theorem hex_generate_fallback (L now : Z) (HL : (0 <= L)%Z) (Hnow : (0 < now)%Z)
  (Hnow64 : (now <= int64_max)%Z) :
  (Providers.HexGenerate L None now = None
     <-> (Z.of_nat (String.length (Providers.fmt_x now)) < L)%Z)
  /\ (forall s, Providers.HexGenerate L None now = Some s ->
        String.length s = Z.to_nat L /\ all_lower_hex s = true).
Proof.
  assert (Hx : all_lower_hex (Providers.fmt_x now) = true).
  { destruct now; try lia. apply string_of_hex_uint_lower_hex. }
  pose proof (fmt_x_int64_length now Hnow Hnow64) as H64.
  unfold Providers.HexGenerate.
  rewrite Z.quot_div_nonneg by lia.
  replace ((L / 2 <? 0)%Z) with false by (symmetry; apply Z.ltb_ge; apply Z.div_pos; lia).
  rewrite orb_false_l.
  destruct (Z.ltb_spec Providers.maxAlloc (L / 2)) as [Hbig|Hsmall].
  { assert (Z.of_nat (String.length (Providers.fmt_x now)) < L)%Z.
    { pose proof (Z.mul_div_le L 2 ltac:(lia)). unfold Providers.maxAlloc in Hbig. lia. }
    split; [split; [intros _; exact H|reflexivity]|discriminate]. }
  unfold Providers.slice_prefix.
  replace (0 <=? L)%Z with true by (symmetry; apply Z.leb_le; lia). rewrite andb_true_l.
  destruct (Z.leb_spec L (Z.of_nat (String.length (Providers.fmt_x now)))) as [Hle|Hgt].
  - split; [split; [intros H; discriminate H|intros H; lia]|].
    intros s H. injection H as <-. split.
    + apply substring_0_length. lia.
    + now apply substring_0_lower_hex.
  - split; [split; [intros _; lia|reflexivity]|discriminate].
Qed.

Lemma string_of_uint_inj (d e : Decimal.uint) :
  Providers.string_of_uint d = Providers.string_of_uint e -> d = e.
Proof.
  revert e; induction d; intros [] H; simpl in H; try discriminate; try reflexivity;
    injection H as H; f_equal; auto.
Qed.

Lemma Pos_to_uint_inj (p q : positive) : Pos.to_uint p = Pos.to_uint q -> p = q.
Proof.
  intros H. apply (f_equal Pos.of_uint) in H.
  rewrite !DecimalPos.Unsigned.of_to in H. now injection H.
Qed.

Lemma string_of_uint_pos_head (p : positive) :
  exists c r, Providers.string_of_uint (Pos.to_uint p) = String c r /\ c <> "-"%char.
Proof.
  pose proof (DecimalPos.Unsigned.of_to p) as H.
  destruct (Pos.to_uint p); simpl in *; try discriminate; eexists _, _; split;
    try reflexivity; discriminate.
Qed.

Lemma fmt_d_inj (a b : Z) : Providers.fmt_d a = Providers.fmt_d b -> a = b.
Proof.
  assert (Hzero : forall p, Providers.string_of_uint (Pos.to_uint p) <> "0").
  { intros p H. change "0" with (Providers.string_of_uint (Decimal.D0 Decimal.Nil)) in H.
    apply string_of_uint_inj, (f_equal Pos.of_uint) in H.
    rewrite DecimalPos.Unsigned.of_to in H. discriminate. }
  assert (Hsign : forall p q, Providers.string_of_uint (Pos.to_uint p)
                              <> "-" ++ Providers.string_of_uint (Pos.to_uint q)).
  { intros p q H. destruct (string_of_uint_pos_head p) as (c & r & Hp & Hc).
    rewrite Hp in H. injection H as Hc' _. contradiction. }
  destruct a as [|p|p], b as [|q|q]; unfold Providers.fmt_d; intros H;
    try reflexivity; try discriminate.
  - symmetry in H. now apply Hzero in H.
  - now apply Hzero in H.
  - f_equal. now apply Pos_to_uint_inj, string_of_uint_inj.
  - now apply Hsign in H.
  - symmetry in H. now apply Hsign in H.
  - f_equal. injection H as H. now apply Pos_to_uint_inj, string_of_uint_inj.
Qed.

Lemma NoDup_map_injective {A B : Type} (f : A -> B) (l : list A) :
  (forall x y, f x = f y -> x = y) -> NoDup l -> NoDup (map f l).
Proof.
  intros Hf Hl. induction Hl as [|x l Hx Hl IH]; simpl; constructor; [|exact IH].
  intros Hin. apply in_map_iff in Hin as (y & Hy & Hin).
  apply Hf in Hy. subst. contradiction.
Qed.

Lemma wrap64_small (z : Z) : (int64_min <= z <= int64_max)%Z -> Providers.wrap64 z = z.
Proof.
  unfold Providers.wrap64, int64_min, int64_max. intros H.
  rewrite Z.mod_small; lia.
Qed.

Lemma SimpleGenerateN_run (n : nat) (c0 : Z) (p : string) :
  (0 <= c0)%Z -> (c0 + Z.of_nat n <= int64_max)%Z ->
  Providers.SimpleGenerateN n {| Providers.counter := c0; Providers.sprefix := p |}
  = ({| Providers.counter := c0 + Z.of_nat n; Providers.sprefix := p |},
     map (fun i => p ++ "-" ++ Providers.fmt_d (c0 + Z.of_nat i)) (List.seq 1 n)).
Proof.
  revert c0; induction n as [|n IH]; intros c0 H0 Hn.
  - simpl. now rewrite Z.add_0_r.
  - cbn [Providers.SimpleGenerateN]. unfold Providers.SimpleGenerate. cbn [Providers.counter Providers.sprefix].
    rewrite wrap64_small by (unfold int64_min in *; lia).
    rewrite IH by lia.
    cbn [List.seq map]. rewrite <- (seq_shift n 1), map_map.
    f_equal; [f_equal; lia|]. f_equal. apply map_ext. intros i. do 3 f_equal. lia.
Qed.

(** [n] calls of [Generate] on a fresh [NewSimpleIDGenerator(prefix)]
    return [prefix-1], ..., [prefix-n] and leave the counter at [n]; as
    long as the 64-bit counter does not wrap around, no identifier is
    returned twice. *)
Theorem simple_generate_ids (n : nat) (prefix : string)
  (Hn : (Z.of_nat n <= int64_max)%Z) :
  Providers.counter (fst (Providers.SimpleGenerateN n (Providers.NewSimpleIDGenerator prefix)))
    = Z.of_nat n
  /\ snd (Providers.SimpleGenerateN n (Providers.NewSimpleIDGenerator prefix))
     = map (fun i => prefix ++ "-" ++ Providers.fmt_d (Z.of_nat i)) (List.seq 1 n)
  /\ NoDup (snd (Providers.SimpleGenerateN n (Providers.NewSimpleIDGenerator prefix))).
Proof.
  unfold Providers.NewSimpleIDGenerator. rewrite SimpleGenerateN_run by lia. simpl.
  split; [reflexivity|]. split; [reflexivity|].
  apply NoDup_map_injective; [|apply seq_NoDup].
  intros x y H. cbv beta in H. apply (append_cancel_l prefix), (append_cancel_l "-"), fmt_d_inj in H. lia.
Qed.

(** ** More of [validateField] and the [min] / [max] rules *)

Lemma ruleErrors_length (rc : string -> string + (string -> bool))
  (name : string) (value : gvalue) (rule : string) :
  (List.length (ruleErrors rc name value rule) <= 1)%nat.
Proof.
  unfold ruleErrors. destruct (String.eqb (TrimSpace rule) ""); simpl; [lia|].
  destruct (applyRule rc _ _ _ _); simpl; lia.
Qed.

(** [validateField] reports at most one error per comma-separated entry of
    the tag: each rule either passes or contributes one message. *)
Theorem validateField_errors_bound (rc : string -> string + (string -> bool))
  (name : string) (value : gvalue) (tag : string) :
  (List.length (validateField rc name value tag) <= List.length (Split comma tag))%nat.
Proof.
  unfold validateField. rewrite fold_append_flat_map. simpl.
  induction (Split comma tag) as [|r rs IH]; simpl; [lia|].
  rewrite length_app. pose proof (ruleErrors_length rc name value r). lia.
Qed.

Lemma validateField_Join (rc : string -> string + (string -> bool))
  (name : string) (value : gvalue) (xs : list string)
  (Hxs : Forall (fun x => has_char comma x = false) xs) :
  validateField rc name value (Join xs ",") = flat_map (ruleErrors rc name value) xs.
Proof.
  unfold validateField. rewrite fold_append_flat_map.
  destruct xs as [|x xs].
  - reflexivity.
  - change "," with (String comma EmptyString).
    rewrite Split_Join; [reflexivity|discriminate|exact Hxs].
Qed.

Lemma flat_map_ruleErrors_blank (rc : string -> string + (string -> bool))
  (name : string) (value : gvalue) (xs : list string) :
  flat_map (ruleErrors rc name value) xs
  = flat_map (ruleErrors rc name value) (filter (fun r => negb (String.eqb (TrimSpace r) "")) xs).
Proof.
  induction xs as [|x xs IH]; [reflexivity|]. simpl.
  destruct (String.eqb_spec (TrimSpace x) "") as [Hb|Hb]; simpl; rewrite IH; [|reflexivity].
  unfold ruleErrors at 1. now rewrite Hb.
Qed.

(** Entries of the tag that are empty or only white space are skipped,
    wherever they stand: dropping every such entry (the leading, interior
    and trailing ones of [" ,required,,min=3,"]) does not change the errors
    of the field. *)
Theorem validateField_blank_entry (rc : string -> string + (string -> bool))
  (name : string) (value : gvalue) (xs : list string)
  (Hxs : Forall (fun x => has_char comma x = false) xs) :
  validateField rc name value (Join xs ",")
  = validateField rc name value
      (Join (filter (fun r => negb (String.eqb (TrimSpace r) "")) xs) ",").
Proof.
  rewrite !validateField_Join.
  - apply flat_map_ruleErrors_blank.
  - apply Forall_forall. intros x Hx. apply filter_In in Hx as [Hx _].
    exact (proj1 (Forall_forall _ xs) Hxs x Hx).
  - exact Hxs.
Qed.

Lemma append_empty_r (s : string) : s ++ "" = s.
Proof. induction s as [|c s IH]; simpl; [reflexivity|]. now rewrite IH. Qed.

Lemma parseInt_decimal (d : string)
  (Hd : all_digits d && negb (String.eqb d "") = true)
  (Hr : (decimal_value d <= int64_max)%Z) :
  parseInt d = decimal_value d.
Proof.
  apply andb_true_iff in Hd as [Hd Hne].
  destruct d as [|c r]; [discriminate Hne|].
  pose proof Hd as Hd'. simpl in Hd'. apply andb_true_iff in Hd' as [Hc _].
  destruct (digit_facts c Hc) as (H128 & Hsp & H43 & H45).
  unfold parseInt. simpl (String.eqb (String c r) EmptyString). cbv iota.
  unfold scanInt. rewrite (SkipSpace_ascii c r H128 Hsp). rewrite H43, H45.
  pose proof (scan_digits_app (String c r) "" Hd eq_refl) as Hs.
  rewrite append_empty_r in Hs. rewrite Hs. simpl (String.eqb (String c r) EmptyString). cbv iota beta.
  assert (H0 : (0 <= decimal_value (String c r))%Z) by
    (apply decimal_value_acc_nonneg; lia).
  replace ((int64_min <=? decimal_value (String c r)) && (decimal_value (String c r) <=? int64_max))%Z
    with true by (symmetry; apply andb_true_iff; split; apply Z.leb_le; unfold int64_min; lia).
  reflexivity.
Qed.

(** [min=N] and [max=N] with [N] written in decimal digits (within the
    64-bit range) bound a string's length in bytes, a slice's number of
    items and an integer's value: [validateMin] passes exactly when the
    measure is at least [N] and [validateMax] exactly when it is at most
    [N]. *)
Theorem validate_min_max_decimal (name n s : string) (xs : list gvalue) (z : Z)
  (Hn : all_digits n && negb (String.eqb n "") = true)
  (Hr : (decimal_value n <= int64_max)%Z) :
  (validateMin name (VString s) n = None <-> (decimal_value n <= Z.of_nat (String.length s))%Z)
  /\ (validateMax name (VString s) n = None <-> (Z.of_nat (String.length s) <= decimal_value n)%Z)
  /\ (validateMin name (VSlice xs) n = None <-> (decimal_value n <= Z.of_nat (List.length xs))%Z)
  /\ (validateMax name (VSlice xs) n = None <-> (Z.of_nat (List.length xs) <= decimal_value n)%Z)
  /\ (validateMin name (VInt z) n = None <-> (decimal_value n <= z)%Z)
  /\ (validateMax name (VInt z) n = None <-> (z <= decimal_value n)%Z).
Proof.
  unfold validateMin, validateMax. rewrite (parseInt_decimal n Hn Hr).
  repeat split;
    match goal with
    | |- context [if (?a <? ?b)%Z then _ else _] =>
        destruct (Z.ltb_spec a b); intros; try discriminate; try reflexivity; lia
    end.
Qed.

(** ** Concrete instances of the further properties *)

Lemma config_set_get_witness :
  Config.Get (Config.Set_ (Config.Set_ Config.NewConfig "port" "80") "host" "db") "port" = "80".
Proof.
  destruct (config_set_get (Config.Set_ Config.NewConfig "port" "80") "host" "db") as (_ & _ & H).
  exact (proj1 (H "port" ltac:(discriminate))).
Defined.

Lemma config_required_vs_default_witness :
  Config.GetRequired (Config.Set_ Config.NewConfig "token" "") "token"
    = inl "required configuration key 'token' not found or empty"
  /\ Config.GetWithDefault (Config.Set_ Config.NewConfig "token" "") "token" "anon" = "anon".
Proof.
  split; [reflexivity|].
  exact (proj2 (proj2 (config_required_vs_default (Config.Set_ Config.NewConfig "token" "") "token")
    _ eq_refl) "anon").
Defined.

Lemma config_getint_witness :
  Config.GetInt (Config.Set_ Config.NewConfig "workers" "12abc") "workers"
    = inr (Config.ParseFailed "workers" "int" "12abc")
  /\ Config.GetInt (Config.Set_ Config.NewConfig "workers" "42") "workers" = inl 42%Z.
Proof.
  destruct (config_getint Config.NewConfig "workers" "42" "12abc" 7
              ltac:(vm_compute; reflexivity) ltac:(vm_compute; reflexivity)
              ltac:(vm_compute; reflexivity)) as (_ & H42 & Hbad & _).
  split; [exact Hbad | exact H42].
Defined.

Lemma config_string_slice_witness :
  Config.GetStringSlice
    (Config.Set_ Config.NewConfig "hosts" (Join ["a"; " b "; "  "; "c"] ",")) "hosts"
  = ["a"; "b"; "c"].
Proof.
  etransitivity; [apply config_string_slice; repeat constructor|].
  vm_compute. reflexivity.
Defined.

Lemma config_validate_witness :
  exists m, Config.Validate (Config.Set_ Config.NewConfig "a" "1") ["a"; "b"; "c"] = Some m
            /\ m = "missing required configuration keys: b, c".
Proof.
  destruct (config_validate (Config.Set_ Config.NewConfig "a" "1") ["a"; "b"; "c"]) as [_ H].
  exists "missing required configuration keys: b, c". split; [reflexivity|].
  etransitivity; [apply H; reflexivity|reflexivity].
Defined.

Lemma config_load_from_env_witness :
  Config.Get (Config.LoadFromEnv Config.NewConfig
                (["B=old"] ++ ("B" ++ "=" ++ "x=y") :: ["A=1"; "junk"])) "B" = "x=y".
Proof.
  exact (proj1 (config_load_from_env Config.NewConfig ["B=old"] ["A=1"; "junk"] "B" "x=y"
    eq_refl ltac:(repeat constructor; simpl; discriminate))).
Defined.

Lemma uuid_generate_format_witness :
  String.length (Providers.UUIDGenerate (Some (fun i => ascii_of_nat (17 * i))) 0) = 36%nat.
Proof. exact (proj1 (proj2 (uuid_generate_format _ 0 "req"))). Defined.

Lemma hex_generate_random_witness :
  (exists s, Providers.HexGenerate (Providers.NewHexIDGenerator 0) (Some (fun i => ascii_of_nat i)) 0
               = Some s /\ String.length s = 16%nat /\ all_lower_hex s = true)
  /\ Providers.HexGenerate (Providers.NewHexIDGenerator 7) (Some (fun i => ascii_of_nat i)) 0 = None
  /\ Providers.HexGenerate (Providers.NewHexIDGenerator (2 ^ 50)) (Some (fun i => ascii_of_nat i)) 0
     = None.
Proof.
  split; [|split].
  - exact (proj1 (proj2 (proj2 (hex_generate_random 0 (fun i => ascii_of_nat i) 0))) eq_refl
             ltac:(vm_compute; discriminate)).
  - exact (proj1 (proj2 (proj2 (proj2 (hex_generate_random 7 (fun i => ascii_of_nat i) 0))))
             eq_refl).
  - exact (proj2 (proj2 (proj2 (proj2 (hex_generate_random (2 ^ 50) (fun i => ascii_of_nat i) 0))))
             ltac:(vm_compute; reflexivity)).
Defined.

Lemma hex_generate_fallback_witness :
  Providers.HexGenerate 20 None 1760000000000000000 = None.
Proof.
  apply (proj1 (hex_generate_fallback 20 1760000000000000000 ltac:(lia) ltac:(lia)
                  ltac:(unfold int64_max; lia))).
  vm_compute. reflexivity.
Defined.

Lemma simple_generate_ids_witness :
  NoDup (snd (Providers.SimpleGenerateN 12 (Providers.NewSimpleIDGenerator "order"))).
Proof.
  exact (proj2 (proj2 (simple_generate_ids 12 "order" ltac:(unfold int64_max; lia)))).
Defined.

Lemma validateField_blank_entry_witness :
  validateField any_compile "Name" (VString "") (Join [" "; "required"; ""; "min=3"; ""] ",")
  = validateField any_compile "Name" (VString "") (Join ["required"; "min=3"] ",").
Proof.
  exact (validateField_blank_entry any_compile "Name" (VString "")
           [" "; "required"; ""; "min=3"; ""] ltac:(repeat constructor)).
Defined.

Lemma validate_min_max_decimal_witness :
  validateMin "Tags" (VSlice [VInt 1; VInt 2]) "3" <> None.
Proof.
  destruct (validate_min_max_decimal "Tags" "3" "" [VInt 1; VInt 2] 0
              ltac:(vm_compute; reflexivity) ltac:(unfold int64_max; vm_compute; discriminate))
    as (_ & _ & Hmin & _).
  intros H. apply Hmin in H. vm_compute in H. apply H. reflexivity.
Defined.
